(** * InterviewPilot: the RAG pipeline and the response evaluator

    A shallow embedding of [src/agent/evaluator.py], [src/rag/retriever.py],
    [src/rag/chunker.py] and [src/rag/loader.py], and the properties their
    specification states about them.

    Conventions of the embedding:
    - a Python [str] is a [string]; its characters are read as the code
      points U+0000..U+00FF, and the character classes ([str.isspace],
      [str.lower], decimal digits) are the ones Python has on that range;
    - a Python [int] is a [Z]; a [float] is an exact rational [Q] kept in
      lowest terms, so that the arithmetic is exact; the comparisons that
      the code makes on floats are given a second time in [Binary64], on
      IEEE 754 doubles, to run the numbers of the specification through
      them and to show where rounding can be seen (a tie);
    - a [dict] is a [gmap]; a [list] is a [list], [append] adds at the end;
    - code that can raise returns a [result]; [try]/[except] is [try_except]. *)

From Stdlib Require Import ZArith QArith Qround Lqa String Ascii List Lia Bool.
From Stdlib Require Import Floats Sorted.
From stdpp Require Import base option list gmap strings fin_maps pretty.

Local Open Scope string_scope.
Local Open Scope list_scope.
Local Open Scope Z_scope.

(** ** Exceptions and fallible computations *)

Module Py.

Inductive exn : Type :=
| ValueError
| IndexError
| ZeroDivisionError
| ImportError
| OSError
| ParseError.

Inductive result (A : Type) : Type :=
| Ok (a : A)
| Raise (e : exn).
Arguments Ok {A} a.
Arguments Raise {A} e.

Definition bind {A B} (m : result A) (k : A -> result B) : result B :=
  match m with
  | Ok a => k a
  | Raise e => Raise e
  end.

(** [try: body except Exception: handler] *)
Definition try_except {A} (body : result A) (handler : exn -> result A) : result A :=
  match body with
  | Ok a => Ok a
  | Raise e => handler e
  end.

Definition raises {A} (m : result A) : Prop :=
  match m with
  | Ok _ => False
  | Raise _ => True
  end.

(** ** Strings *)

Definition code (c : ascii) : nat := nat_of_ascii c.

(** The line feed, as a character and as a string. *)
Definition newline : ascii := ascii_of_nat 10.
Definition nl : string := String newline EmptyString.

(** [str.isspace] on one character: TAB..CR, FS..US, SPACE, NEL, NBSP. *)
Definition isspace (c : ascii) : bool :=
  let n := code c in
  ((9 <=? n) && (n <=? 13) || (28 <=? n) && (n <=? 32)
   || (n =? 133) || (n =? 160))%nat.

Definition isupper (c : ascii) : bool :=
  let n := code c in
  ((65 <=? n) && (n <=? 90)
   || (192 <=? n) && (n <=? 222) && negb (n =? 215))%nat.

Definition lower_char (c : ascii) : ascii :=
  if isupper c then ascii_of_nat (code c + 32) else c.

(** [s.lower()] *)
Fixpoint lower (s : string) : string :=
  match s with
  | EmptyString => EmptyString
  | String c s' => String (lower_char c) (lower s')
  end.

(** [s.startswith(p)] *)
Definition startswith (s p : string) : bool := String.prefix p s.

(** [needle in s] *)
Fixpoint contains (needle s : string) : bool :=
  String.prefix needle s ||
  match s with
  | EmptyString => false
  | String _ s' => contains needle s'
  end.

(** [c in chars] for a character *)
Fixpoint mem_char (c : ascii) (chars : string) : bool :=
  match chars with
  | EmptyString => false
  | String d chars' => Ascii.eqb c d || mem_char c chars'
  end.

Fixpoint lstrip_by (p : ascii -> bool) (s : string) : string :=
  match s with
  | EmptyString => EmptyString
  | String c s' => if p c then lstrip_by p s' else s
  end.

Fixpoint rstrip_by (p : ascii -> bool) (s : string) : string :=
  match s with
  | EmptyString => EmptyString
  | String c s' =>
      match rstrip_by p s' with
      | EmptyString => if p c then EmptyString else String c EmptyString
      | r => String c r
      end
  end.

Definition strip_by (p : ascii -> bool) (s : string) : string :=
  rstrip_by p (lstrip_by p s).

(** [s.strip()] *)
Definition strip (s : string) : string := strip_by isspace s.

(** [s.strip(chars)] *)
Definition strip_chars (chars s : string) : string :=
  strip_by (fun c => mem_char c chars) s.

Definition first_char (s : string) : option ascii :=
  match s with
  | EmptyString => None
  | String c _ => Some c
  end.

Fixpoint last_char (s : string) : option ascii :=
  match s with
  | EmptyString => None
  | String c EmptyString => Some c
  | String _ s' => last_char s'
  end.

(** A string is trimmed when neither its first nor its last character is
    whitespace. *)
Definition trimmed (s : string) : Prop :=
  (forall c, first_char s = Some c -> isspace c = false) /\
  (forall c, last_char s = Some c -> isspace c = false).

(** [s.split(sep)] for a one-character separator: empty fields are kept
    and the result is never empty. *)
Fixpoint split_on (sep : ascii) (s : string) : list string :=
  match s with
  | EmptyString => [EmptyString]
  | String c s' =>
      if Ascii.eqb c sep then EmptyString :: split_on sep s'
      else match split_on sep s' with
           | w :: ws => String c w :: ws
           | [] => [String c EmptyString]
           end
  end.

(** [s.split(sep, 1)] for a one-character separator. *)
Fixpoint split_once (sep : ascii) (s : string) : list string :=
  match s with
  | EmptyString => [EmptyString]
  | String c s' =>
      if Ascii.eqb c sep then [EmptyString; s']
      else match split_once sep s' with
           | w :: ws => String c w :: ws
           | [] => [String c EmptyString]
           end
  end.

(** [s.split()]: fields separated by runs of whitespace, no empty field. *)
Fixpoint split (s : string) : list string :=
  match s with
  | EmptyString => []
  | String c s' =>
      if isspace c then split s'
      else match s' with
           | String d _ =>
               if isspace d then String c EmptyString :: split s'
               else match split s' with
                    | w :: ws => String c w :: ws
                    | [] => [String c EmptyString]
                    end
           | EmptyString => [String c EmptyString]
           end
  end.

(** [xs[i]] *)
Definition index {A} (xs : list A) (i : nat) : result A :=
  match xs !! i with
  | Some x => Ok x
  | None => Raise IndexError
  end.

(** [xs[:n]] for any integer [n] (a negative [n] counts from the end). *)
Definition slice_to {A} (n : Z) (xs : list A) : list A :=
  if 0 <=? n then take (Z.to_nat n) xs
  else take (length xs - Z.to_nat (- n)) xs.

(** [s.replace(old, "")] for a non-empty [old]: every occurrence, left to
    right, without overlap. *)
Fixpoint remove_all (old : string) (s : string) (skip : nat) : string :=
  match s with
  | EmptyString => EmptyString
  | String c s' =>
      match skip with
      | S k => remove_all old s' k
      | O =>
          if String.prefix old s
          then remove_all old s' (String.length old - 1)
          else String c (remove_all old s' 0)
      end
  end.

Definition replace_with_empty (old s : string) : string := remove_all old s 0.

(** ** [int(s)] on a string *)

Definition isdigit (c : ascii) : bool :=
  let n := code c in ((48 <=? n) && (n <=? 57))%nat.

Definition digit_value (c : ascii) : Z := Z.of_nat (code c) - 48.

(** digits, a single underscore allowed between two digits *)
Fixpoint int_digits (acc : Z) (after_digit : bool) (s : string) : option Z :=
  match s with
  | EmptyString => if after_digit then Some acc else None
  | String c s' =>
      if isdigit c then int_digits (10 * acc + digit_value c) true s'
      else if Ascii.eqb c "_" && after_digit then int_digits acc false s'
      else None
  end.

Fixpoint count_digits (s : string) : nat :=
  match s with
  | EmptyString => O
  | String c s' => ((if isdigit c then 1 else 0) + count_digits s')%nat
  end.

(** CPython's default [sys.int_max_str_digits] *)
Definition int_max_str_digits : nat := 4300.

Definition int (s : string) : result Z :=
  let t := strip s in
  let '(neg, body) :=
    match t with
    | String "-" r => (true, r)
    | String "+" r => (false, r)
    | _ => (false, t)
    end in
  if (int_max_str_digits <? count_digits body)%nat then Raise ValueError
  else match int_digits 0 false body with
       | Some n => Ok (if neg then - n else n)
       | None => Raise ValueError
       end.

(** [a / b] on integers (true division) *)
Definition truediv (a b : Z) : result Q :=
  match b with
  | Z0 => Raise ZeroDivisionError
  | Zpos p => Ok (Qred (a # p))
  | Zneg p => Ok (Qred ((- a) # p))
  end.

(** [round(x, 1)]: to the nearest tenth, a tie to the even one. *)
Definition round_half_even (x : Q) : Z :=
  let f := Qfloor x in
  match Qcompare (x - inject_Z f)%Q (1 # 2) with
  | Lt => f
  | Gt => f + 1
  | Eq => if Z.even f then f else f + 1
  end.

Definition round1 (x : Q) : Q := Qred (round_half_even (x * 10)%Q # 10).

End Py.

Notation "'let*' x ':=' m 'in' k" := (Py.bind m (fun x => k))
  (at level 10, x pattern, m at level 100, k at level 200).

(** * The response evaluator ([src/agent/evaluator.py]) *)

Module Evaluator.
Import Py.

Record ResponseScore : Type := mkResponseScore {
  overall : Z;
  strengths : list string;
  improvements : list string;
  raw_feedback : string
}.

(** A [datetime] is a number of microseconds, the resolution of the type. *)
Record SessionMetrics : Type := mkSessionMetrics {
  session_id : string;
  interview_type : string;
  started_at : Z;
  ended_at : option Z;
  total_questions : Z;
  questions_answered : Z;
  average_score : Q;
  scores : list ResponseScore;
  total_speaking_time_seconds : Q;
  average_response_time_seconds : Q
}.

(** [sum(s.overall for s in xs)] *)
Definition sum_overall (xs : list ResponseScore) : Z :=
  foldr (fun s acc => overall s + acc) 0 xs.

Definition add_score (self : SessionMetrics) (score : ResponseScore)
  : result SessionMetrics :=
  let scores' := scores self ++ [score] in
  let total := sum_overall scores' in
  let* avg := truediv total (Z.of_nat (length scores')) in
  Ok {| session_id := session_id self;
        interview_type := interview_type self;
        started_at := started_at self;
        ended_at := ended_at self;
        total_questions := total_questions self;
        questions_answered := questions_answered self + 1;
        average_score := avg;
        scores := scores';
        total_speaking_time_seconds := total_speaking_time_seconds self;
        average_response_time_seconds := average_response_time_seconds self |}.


Definition _score_trend (self : SessionMetrics) : result string :=
  let n := length (scores self) in
  if (n <? 3)%nat then Ok "not_enough_data"
  else
    let first_half := take (n / 2) (scores self) in
    let second_half := drop (n / 2) (scores self) in
    let* first_avg :=
      truediv (sum_overall first_half) (Z.of_nat (length first_half)) in
    let* second_avg :=
      truediv (sum_overall second_half) (Z.of_nat (length second_half)) in
    let diff := (second_avg - first_avg)%Q in
    if Qlt_le_dec (1 # 2) diff then Ok "improving"
    else if Qlt_le_dec diff (- (1 # 2))%Q then Ok "declining"
    else Ok "stable".







(** ** The summary in the specification's words *)

(** The mean of the scores of a non-empty list. *)
Definition mean (xs : list ResponseScore) : Q :=
  sum_overall xs # Pos.of_nat (length xs).

(** The mean of the second half of the scores minus the mean of the first. *)
Definition half_diff (xs : list ResponseScore) : Q :=
  (mean (drop (length xs / 2) xs) - mean (take (length xs / 2) xs))%Q.

(** The items of a list without repetition, each at its first occurrence. *)
Fixpoint first_seen (l : list string) : list string :=
  match l with
  | [] => []
  | x :: l' => x :: filter (fun y => y <> x) (first_seen l')
  end.

(** A session after a sequence of [add_score] calls. *)
Fixpoint add_scores (self : SessionMetrics) (l : list ResponseScore)
  : result SessionMetrics :=
  match l with
  | [] => Ok self
  | score :: rest =>
      let* self' := add_score self score in
      add_scores self' rest
  end.

(** ** Parsing the model's reply *)

(** The inner [for word in line.split()] loop: [Some num] when it breaks. *)
Fixpoint scan_words (words : list string) : result (option Z) :=
  match words with
  | [] => Ok None
  | word :: rest =>
      match int (strip_chars "():/" word) with
      | Ok num =>
          if (1 <=? num) && (num <=? 10) then Ok (Some num)
          else scan_words rest
      | Raise ValueError => scan_words rest
      | Raise e => Raise e
      end
  end.

(** [line.split(":", 1)[1].strip()] *)
Definition colon_content (line : string) : result string :=
  let* part := index (split_once ":" line) 1 in
  Ok (strip part).

Definition nonempty (s : string) : bool :=
  match s with
  | EmptyString => false
  | String _ _ => true
  end.

Definition improvement_words : list string :=
  ["improve"; "suggestion"; "consider"].

Definition parse_state : Type := Z * list string * list string.

(** The three parts of the loop body, in the order of the source. *)
Definition extract_score (score : Z) (line : string) : result Z :=
  let line_lower := lower line in
  if contains "score" line_lower || contains "/10" line then
    let* found := scan_words (split line) in
    Ok (match found with Some num => num | None => score end)
  else Ok score.

Definition extract_strengths (strengths : list string) (line : string)
  : result (list string) :=
  let line_lower := lower line in
  if contains "strength" line_lower && contains ":" line then
    let* content := colon_content line in
    Ok (if nonempty content then strengths ++ [content] else strengths)
  else Ok strengths.

Definition extract_improvements (improvements : list string) (line : string)
  : result (list string) :=
  let line_lower := lower line in
  if existsb (fun word => contains word line_lower) improvement_words then
    if contains ":" line then
      let* content := colon_content line in
      Ok (if nonempty content then improvements ++ [content] else improvements)
    else Ok improvements
  else Ok improvements.

Definition parse_line (st : parse_state) (line : string) : result parse_state :=
  let '(score, strengths, improvements) := st in
  let* score := extract_score score line in
  let* strengths := extract_strengths strengths line in
  let* improvements := extract_improvements improvements line in
  Ok (score, strengths, improvements).

Fixpoint parse_lines (st : parse_state) (lines : list string) : result parse_state :=
  match lines with
  | [] => Ok st
  | line :: rest =>
      let* st' := parse_line st line in
      parse_lines st' rest
  end.

Definition _parse_evaluation (evaluation : string) : result ResponseScore :=
  let lines := split_on newline evaluation in
  let* st := parse_lines (7, [], []) lines in
  let '(score, strengths, improvements) := st in
  Ok {| overall := score;
        strengths := strengths;
        improvements := improvements;
        raw_feedback := evaluation |}.

(** ** The parsing contract in the specification's words

    A line contributes a score when it mentions "score" or "/10" and one of
    its tokens, stripped of [()/:], is an integer from 1 to 10 (the first
    such token); the reply's score is the one of the last contributing line,
    7 when there is none. *)
Definition line_score (line : string) : option Z :=
  if contains "score" (lower line) || contains "/10" line then
    match scan_words (split line) with
    | Ok found => found
    | Raise _ => None
    end
  else None.

Definition last_score (default : Z) (lines : list string) : Z :=
  foldl (fun acc line => from_option id acc (line_score line)) default lines.

(** ** The scoring call *)

(** The chat client: from the system and user messages to the [content] of
    each returned choice, or an exception. *)
Definition Client : Type := string -> string -> result (list (option string)).

Definition get_evaluation_prompt : string :=
  "You are evaluating a candidate's interview response." +:+ nl +:+ nl +:+
  "Provide a brief, constructive evaluation with:" +:+ nl +:+
  "1. **Score** (1-10): Overall quality of the response" +:+ nl +:+
  "2. **Strengths**: What the candidate did well (1-2 points)" +:+ nl +:+
  "3. **Improvements**: Specific, actionable feedback (1-2 points)" +:+ nl +:+ nl +:+
  "Be encouraging but honest. Focus on the most impactful feedback." +:+ nl +:+
  "Keep your evaluation concise - 2-3 sentences max.".

(** The body of the [try] in [_generate_evaluation]. *)
Definition completion_content (client : Client) (question response : string)
  : result string :=
  let* choices :=
    client get_evaluation_prompt
      ("Question: " +:+ question +:+ nl +:+ nl +:+ "Candidate Response: " +:+ response) in
  let* content := index choices 0 in
  Ok (match content with
      | Some (String c s) => String c s
      | _ => ""
      end).

Definition _generate_evaluation (client : Client) (question response : string)
  : result string :=
  try_except (completion_content client question response)
    (fun _ => Ok "Unable to evaluate response.").

Definition evaluate_response (client : Client)
    (sessions : gmap string SessionMetrics)
    (session_id question response : string)
  : result (ResponseScore * gmap string SessionMetrics) :=
  let* evaluation := _generate_evaluation client question response in
  let* score := _parse_evaluation evaluation in
  let* sessions' :=
    match sessions !! session_id with
    | Some metrics =>
        let* metrics' := add_score metrics score in
        Ok (<[session_id := metrics']> sessions)
    | None => Ok sessions
    end in
  Ok (score, sessions').

Definition get_session (sessions : gmap string SessionMetrics)
    (session_id : string) : option SessionMetrics :=
  sessions !! session_id.

Definition end_session (sessions : gmap string SessionMetrics)
    (now : Z) (sid : string)
  : option SessionMetrics * gmap string SessionMetrics :=
  match sessions !! sid with
  | None => (None, sessions)
  | Some session =>
      let session' :=
        {| session_id := session_id session;
           interview_type := interview_type session;
           started_at := started_at session;
           ended_at := Some now;
           total_questions := total_questions session;
           questions_answered := questions_answered session;
           average_score := average_score session;
           scores := scores session;
           total_speaking_time_seconds := total_speaking_time_seconds session;
           average_response_time_seconds :=
             average_response_time_seconds session |} in
      (Some session', <[sid := session']> sessions)
  end.

Definition start_session (sessions : gmap string SessionMetrics)
    (now : Z) (sid itype : string) : SessionMetrics * gmap string SessionMetrics :=
  let metrics :=
    {| session_id := sid; interview_type := itype; started_at := now;
       ended_at := None; total_questions := 0; questions_answered := 0;
       average_score := 0; scores := [];
       total_speaking_time_seconds := 0; average_response_time_seconds := 0 |} in
  (metrics, <[sid := metrics]> sessions).

(** ** Values used in the examples *)

(** The score [evaluate_response] falls back to. *)
Definition default_score : ResponseScore :=
  {| overall := 7; strengths := []; improvements := [];
     raw_feedback := "Unable to evaluate response." |}.

(** A client whose call fails, and one that answers with one choice. *)
Definition failing_client : Client := fun _ _ => Raise OSError.

Definition replying_client (reply : string) : Client :=
  fun _ _ => Ok [Some reply].

Definition open_session : SessionMetrics :=
  (start_session ∅ 0 "s1" "technical").1.

(** A score with no strengths and no improvements. *)
Definition bare_score (n : Z) (feedback : string) : ResponseScore :=
  {| overall := n; strengths := []; improvements := []; raw_feedback := feedback |}.

Definition session_with (overalls : list Z) : SessionMetrics :=
  {| session_id := "s1"; interview_type := "technical"; started_at := 0;
     ended_at := None; total_questions := 0; questions_answered := 0;
     average_score := 0; scores := map (fun n => bare_score n "") overalls;
     total_speaking_time_seconds := 0; average_response_time_seconds := 0 |}.

End Evaluator.

(** * Documents ([langchain_core.documents.Document]) *)

Module Doc.

Inductive meta_value : Type :=
| MStr (s : string)
| MInt (n : Z)
| MBool (b : bool).

Record Document : Type := mkDocument {
  page_content : string;
  metadata : gmap string meta_value
}.

(** [len(s)] *)
Definition len (s : string) : Z := Z.of_nat (String.length s).

End Doc.

(** * The context retriever ([src/rag/retriever.py]) *)

Module Retriever.
Import Py Doc.

(** The vector store manager, seen from the retriever: its
    [similarity_search_with_score(query, k, filter_dict)], which answers with
    (document, distance) pairs. *)
Record VectorStoreManager : Type := mkVectorStoreManager {
  similarity_search_with_score :
    string -> Z -> option (gmap string meta_value) -> list (Document * Q)
}.

Record ContextRetriever : Type := mkContextRetriever {
  vectorstore : VectorStoreManager;
  default_k : Z;
  score_threshold : Q
}.

(** [k or default]: [None] and [0] are falsy *)
Definition int_or (k : option Z) (default : Z) : Z :=
  match k with
  | None => default
  | Some 0 => default
  | Some n => n
  end.

(** [s or default]: [None] and the empty string are falsy *)
Definition str_or (s : option string) (default : string) : string :=
  match s with
  | Some (String c r) => String c r
  | _ => default
  end.

(** [{"category": category} if category else None] *)
Definition filter_dict_of (category : option string)
  : option (gmap string meta_value) :=
  match category with
  | Some (String c r) => Some {[ "category" := MStr (String c r) ]}
  | _ => None
  end.

(** The condition of the comprehension: [score <= (1 - self.score_threshold)] *)
Definition within_distance (self : ContextRetriever) (score : Q) : bool :=
  Qle_bool score (1 - score_threshold self).

Definition retrieve (self : ContextRetriever) (query : string)
    (category : option string) (k : option Z) : list Document :=
  let num_results := int_or k (default_k self) in
  let filter_dict := filter_dict_of category in
  let results :=
    similarity_search_with_score (vectorstore self) query (num_results * 2) filter_dict in
  let filtered_docs :=
    slice_to num_results
      (map fst
         (List.filter (fun '(doc, score) => within_distance self score) results)) in
  filtered_docs.

(** The inner loop of [get_sample_questions] over the lines of a document. *)
Fixpoint question_lines (questions : list string) (lines : list string) : list string :=
  match lines with
  | [] => questions
  | line :: rest =>
      if startswith line "Q:" || startswith line "**Q:" then
        let question :=
          strip (replace_with_empty "Q:" (replace_with_empty "**Q:" line)) in
        match question with
        | String _ _ => question_lines (questions ++ [question]) rest
        | EmptyString => question_lines questions rest
        end
      else question_lines questions rest
  end.

(** [metadata.get(key) == value] for a string [value] *)
Definition get_equals (metadata : gmap string meta_value) (key value : string)
  : bool :=
  match metadata !! key with
  | Some (MStr t) => String.eqb t value
  | _ => false
  end.

(** The outer loop over the retrieved documents. *)
Fixpoint question_docs (questions : list string) (docs : list Document) : list string :=
  match docs with
  | [] => questions
  | doc :: rest =>
      if get_equals (metadata doc) "content_type" "qa_pair" then
        question_docs
          (question_lines questions
             (split_on newline (page_content doc)))
          rest
      else question_docs questions rest
  end.

Definition get_sample_questions (self : ContextRetriever)
    (interview_type : string) (topic : option string) (count : Z) : list string :=
  let query := str_or topic (interview_type +:+ " interview questions") in
  let docs := retrieve self query (Some interview_type) (Some count) in
  slice_to count (question_docs [] docs).

(** ** The retrieval contract in the specification's words *)




(** ** The sample questions, document by document *)

Definition is_qa_pair (doc : Document) : bool :=
  get_equals (metadata doc) "content_type" "qa_pair".

(** The text kept from a marked line: every "**Q:" and then every "Q:"
    removed, and the rest trimmed. *)
Definition question_text (line : string) : string :=
  strip (replace_with_empty "Q:" (replace_with_empty "**Q:" line)).

Definition question_of_line (line : string) : option string :=
  if startswith line "Q:" || startswith line "**Q:" then
    match question_text line with
    | EmptyString => None
    | q => Some q
    end
  else None.

Definition questions_of_doc (doc : Document) : list string :=
  if is_qa_pair doc
  then omap question_of_line (split_on newline (page_content doc))
  else [].

(** ** Values used in the examples *)

Definition qa_doc (content : string) : Document :=
  {| page_content := content;
     metadata := {[ "content_type" := MStr "qa_pair" ]} |}.

Definition text_doc (content : string) : Document :=
  {| page_content := content;
     metadata := {[ "content_type" := MStr "text" ]} |}.

(** A store that answers every query with the same ranked candidates, cut
    to the number asked for. *)
Definition fixed_store (candidates : list (Document * Q)) : VectorStoreManager :=
  {| similarity_search_with_score := fun _ k _ => slice_to k candidates |}.

Definition retriever_over (candidates : list (Document * Q)) : ContextRetriever :=
  {| vectorstore := fixed_store candidates; default_k := 4;
     score_threshold := 7 # 10 |}.

Definition near_and_far : list (Document * Q) :=
  [(text_doc "near", 2 # 10); (text_doc "far", 35 # 100)].

Definition six_exact : list (Document * Q) :=
  map (fun s => (text_doc s, 0%Q)) ["a"; "b"; "c"; "d"; "e"; "f"].


Definition mixed_documents : list (Document * Q) :=
  [(qa_doc ("Q: What is a heap?" +:+ nl +:+ "A: A tree." +:+
            nl +:+ "**Q: Why use one?"), 0%Q);
   (text_doc "Q: Not a question document", 0%Q);
   (qa_doc "Q: What is a trie?", 0%Q)].

End Retriever.

(** * The semantic chunker ([src/rag/chunker.py]) *)

Module Chunker.
Import Py Doc.

(** [_splitter_split_text] is [RecursiveCharacterTextSplitter.split_text] of
    the [langchain_text_splitters] package, configured by the constructor. *)
Record SemanticChunker : Type := mkSemanticChunker {
  chunk_size : Z;
  chunk_overlap : Z;
  separators : list string;
  _splitter_split_text : string -> list string
}.

Definition content_type_of (content : string) : string :=
  if startswith content "Q:" || startswith content "**Q:" then "qa_pair"
  else if startswith content "#" then "heading"
  else "text".

Definition _enhance_metadata (document : Document)
    (chunk_index total_chunks : Z) : Document :=
  let updated : gmap string meta_value :=
    <["is_last_chunk" := MBool (chunk_index =? total_chunks - 1)]>
    (<["is_first_chunk" := MBool (chunk_index =? 0)]>
    (<["chunk_size" := MInt (len (page_content document))]>
    (<["total_chunks" := MInt total_chunks]>
    (<["chunk_index" := MInt chunk_index]> (metadata document))))) in
  {| page_content := page_content document;
     metadata := <["content_type" := MStr (content_type_of (page_content document))]> updated |}.

Definition _chunk_single_document (self : SemanticChunker) (document : Document)
  : list Document :=
  let content := page_content document in
  if len content <=? chunk_size self then [_enhance_metadata document 0 1]
  else
    let chunks := _splitter_split_text self content in
    imap
      (fun i chunk_text =>
         let chunk_doc :=
           {| page_content := strip chunk_text; metadata := metadata document |} in
         _enhance_metadata chunk_doc (Z.of_nat i) (Z.of_nat (length chunks)))
      chunks.

Definition chunk_documents (self : SemanticChunker) (documents : list Document)
  : list Document :=
  foldl (fun chunked_docs doc => chunked_docs ++ _chunk_single_document self doc)
    [] documents.

(** ** Values used in the examples *)

Definition DEFAULT_SEPARATORS : list string :=
  [nl +:+ "## "; nl +:+ "### "; nl +:+ nl;
   nl +:+ "- "; nl +:+ "* "; nl; ". "; " "; ""].

(** A chunker of the default size over a splitter that cuts at spaces. *)
Definition word_chunker (size : Z) : SemanticChunker :=
  {| chunk_size := size; chunk_overlap := 0; separators := DEFAULT_SEPARATORS;
     _splitter_split_text := split_on " " |}.

Definition padded_document : Document :=
  {| page_content := "  Binary search halves the range. " +:+ nl;
     metadata := {[ "category" := MStr "technical" ]} |}.

End Chunker.

(** * The document loader ([src/rag/loader.py]) *)

Module Loader.
Import Py Doc.

(** A [pathlib] path on a POSIX system: whether it starts at the root, and
    its components after the root. *)
Record Path : Type := mkPath {
  is_absolute : bool;
  names : list string
}.

(** [base / path] *)
Definition joinpath (base path : Path) : Path :=
  if is_absolute path then path
  else {| is_absolute := is_absolute base; names := names base ++ names path |}.

Fixpoint strip_prefix (pre l : list string) : option (list string) :=
  match pre, l with
  | [], _ => Some l
  | p :: pre', x :: l' => if String.eqb p x then strip_prefix pre' l' else None
  | _ :: _, [] => None
  end.

(** [path.relative_to(other)] *)
Definition relative_to (path other : Path) : result Path :=
  if Bool.eqb (is_absolute path) (is_absolute other) then
    match strip_prefix (names other) (names path) with
    | Some rest => Ok {| is_absolute := false; names := rest |}
    | None => Raise ValueError
    end
  else Raise ValueError.

(** [path.name] *)
Definition name (path : Path) : string := List.last (names path) "".

(** [s.rfind(c)], counted from [pos] *)
Fixpoint rfind (c : ascii) (s : string) (pos : nat) : option nat :=
  match s with
  | EmptyString => None
  | String d s' =>
      match rfind c s' (S pos) with
      | Some i => Some i
      | None => if Ascii.eqb d c then Some pos else None
      end
  end.

(** [path.suffix] *)
Definition suffix (path : Path) : string :=
  let nm := name path in
  match rfind "." nm 0 with
  | Some i =>
      if ((0 <? i) && (i <? String.length nm - 1))%nat
      then String.substring i (String.length nm - i) nm
      else ""
  | None => ""
  end.

Fixpoint join_names (l : list string) : string :=
  match l with
  | [] => ""
  | [x] => x
  | x :: rest => x +:+ "/" +:+ join_names rest
  end.

(** [str(path)] *)
Definition path_str (path : Path) : string :=
  match is_absolute path, names path with
  | true, l => "/" +:+ join_names l
  | false, [] => "."
  | false, l => join_names l
  end.

(** ** The category in the specification's words

    The category of a path below the base, from its components after the
    base: the first one when a directory lies between the base and the file,
    "general" otherwise. *)
Definition category_of (relative : list string) : string :=
  match relative with
  | first :: _ :: _ => first
  | _ => "general"
  end.

(** What the loader reads from its environment: the file system, and the
    [pypdf] package ([PdfReader(path).pages], each page's [extract_text()]). *)
Record Env : Type := mkEnv {
  exists_ : Path -> bool;
  read_text : Path -> result string;
  pypdf_installed : bool;
  pdf_pages : Path -> result (list (result string))
}.

Record DocumentLoader : Type := mkDocumentLoader {
  base_path : Path
}.

Definition SUPPORTED_EXTENSIONS : gset string := {[ ".md"; ".txt"; ".pdf" ]}.

Definition _resolve_path (self : DocumentLoader) (path : Path) : Path :=
  if is_absolute path then path else joinpath (base_path self) path.

Definition _extract_category (self : DocumentLoader) (path : Path) : result string :=
  match relative_to path (base_path self) with
  | Ok relative =>
      match names relative with
      | first :: _ :: _ => Ok first
      | _ => Ok "general"
      end
  | Raise ValueError => Ok "general"
  | Raise e => Raise e
  end.

Definition _load_text (env : Env) (self : DocumentLoader) (path : Path)
  : result (list Document) :=
  let* content := read_text env path in
  let* category := _extract_category self path in
  let metadata : gmap string meta_value :=
    {[ "source" := MStr (path_str path);
       "filename" := MStr (name path);
       "category" := MStr category;
       "file_type" := MStr (lower (suffix path)) ]} in
  Ok [{| page_content := content; metadata := metadata |}].

(** The loop over [enumerate(reader.pages)]. *)
Fixpoint pdf_loop (self : DocumentLoader) (path : Path) (i : Z)
    (documents : list Document) (pages : list (result string))
  : result (list Document) :=
  match pages with
  | [] => Ok documents
  | page :: rest =>
      let* text := page in
      match strip text with
      | String _ _ =>
          let* category := _extract_category self path in
          let metadata : gmap string meta_value :=
            {[ "source" := MStr (path_str path);
               "filename" := MStr (name path);
               "category" := MStr category;
               "file_type" := MStr ".pdf";
               "page" := MInt (i + 1) ]} in
          pdf_loop self path (i + 1)
            (documents ++ [{| page_content := text; metadata := metadata |}]) rest
      | EmptyString => pdf_loop self path (i + 1) documents rest
      end
  end.

Definition _load_pdf (env : Env) (self : DocumentLoader) (path : Path)
  : result (list Document) :=
  if pypdf_installed env then
    let* pages := pdf_pages env path in
    pdf_loop self path 0 [] pages
  else Ok [].

Definition load_file (env : Env) (self : DocumentLoader) (file_path : Path)
  : result (list Document) :=
  let path := _resolve_path self file_path in
  if negb (exists_ env path) then Ok []
  else
    let extension := lower (suffix path) in
    if bool_decide (extension ∉ SUPPORTED_EXTENSIONS) then Ok []
    else
      try_except
        (if String.eqb extension ".pdf" then _load_pdf env self path
         else _load_text env self path)
        (fun _ => Ok []).

(** ** Values used in the examples *)

Definition knowledge : DocumentLoader :=
  {| base_path := {| is_absolute := false; names := ["knowledge"] |} |}.

(** Every path exists and reads as the same text; no PDF parses. *)
Definition text_env : Env :=
  {| exists_ := fun _ => true;
     read_text := fun _ => Ok "# Arrays";
     pypdf_installed := true;
     pdf_pages := fun _ => Raise ParseError |}.


Definition arrays_md : Path :=
  {| is_absolute := false; names := ["technical"; "arrays.md"] |}.

Definition notes_md : Path :=
  {| is_absolute := false; names := ["notes.md"] |}.

End Loader.


(** * The float arithmetic of the code in binary64

    The places where the code computes with floats, a second time with the
    operations of IEEE 754 binary64, to run the numbers of the specification
    through them. *)

Module Binary64.
Import Py.

#[local] Set Warnings "-inexact-float".

(** [float(z)], exact for an integer below 2^53 in size *)
Definition of_int (z : Z) : float :=
  match z with
  | Z0 => 0%float
  | Zpos _ => of_uint63 (Uint63.of_Z z)
  | Zneg p => (- of_uint63 (Uint63.of_Z (Zpos p)))%float
  end.

(** [a / b] on integers *)
Definition truediv (a b : Z) : result float :=
  if b =? 0 then Raise ZeroDivisionError else Ok (of_int a / of_int b)%float.

(** The rational number that a finite float stands for. *)
Definition value (x : float) : option Q :=
  match Prim2SF x with
  | S754_zero _ => Some 0%Q
  | S754_finite sign m e =>
      Some (Qred ((if sign then - (Z.pos m # 1) else Z.pos m # 1) * Qpower 2 e)%Q)
  | _ => None
  end.

(** [round(x, 1)]: the float nearest to the tenth nearest to [x]. *)
Definition round1 (x : float) : float :=
  match Prim2SF x, value x with
  | S754_finite sign _ _, Some q =>
      match round_half_even (q * 10)%Q with
      | Z0 => if sign then (- 0)%float else 0%float
      | t => (of_int t / 10)%float
      end
  | _, _ => x
  end.

(** [average_score] after the [add_score] calls that stored [overalls] *)
Definition average_score (overalls : list Z) : result float :=
  truediv (foldr Z.add 0 overalls) (Z.of_nat (length overalls)).

(** [_score_trend] on the [overall] values of the stored scores *)
Definition _score_trend (overalls : list Z) : result string :=
  let n := length overalls in
  if (n <? 3)%nat then Ok "not_enough_data"
  else
    let first_half := take (n / 2) overalls in
    let second_half := drop (n / 2) overalls in
    let* first_avg :=
      truediv (foldr Z.add 0 first_half) (Z.of_nat (length first_half)) in
    let* second_avg :=
      truediv (foldr Z.add 0 second_half) (Z.of_nat (length second_half)) in
    let diff := (second_avg - first_avg)%float in
    if (0.5 <? diff)%float then Ok "improving"
    else if (diff <? -0.5)%float then Ok "declining"
    else Ok "stable".

(** [score <= (1 - self.score_threshold)] *)
Definition within_distance (score_threshold score : float) : bool :=
  (score <=? 1 - score_threshold)%float.

Definition threshold_07 : float := 0.7%float.
Definition distance_035 : float := 0.35%float.
Definition distance_02 : float := 0.2%float.

(** Twelve scores whose half means are exactly one half apart. *)
Definition tie : list Z := [1; 2; 2; 2; 2; 2; 2; 2; 2; 2; 3; 3].

End Binary64.

(** * The context assembly of the retriever ([src/rag/retriever.py]) *)

Module Context.
Import Py Doc Retriever.

(** [str(n)] for an integer *)
Definition str_of_int (n : Z) : string := pretty n.

(** A metadata value as an f-string renders it *)
Definition render (v : meta_value) : string :=
  match v with
  | MStr s => s
  | MInt n => str_of_int n
  | MBool true => "True"
  | MBool false => "False"
  end.

(** [sep.join(parts)] *)
Fixpoint join (sep : string) (parts : list string) : string :=
  match parts with
  | [] => EmptyString
  | [part] => part
  | part :: rest => part +:+ sep +:+ join sep rest
  end.

(** The part of the [i]-th document, [i] counted from 1 *)
Definition context_part (i : Z) (doc : Document) : string :=
  let category := default (MStr "general") (metadata doc !! "category") in
  let content := strip (page_content doc) in
  "[Context " +:+ str_of_int i +:+ " - " +:+ render category +:+ "]" +:+ nl +:+
  content +:+ nl.

Definition _format_context (documents : list Document) : string :=
  match documents with
  | [] => EmptyString
  | _ =>
      let context_parts :=
        imap (fun i doc => context_part (Z.of_nat i + 1) doc) documents in
      join nl context_parts
  end.

Definition retrieve_for_question (self : ContextRetriever)
    (question interview_type : string) : string :=
  let docs := retrieve self question (Some interview_type) (Some 3) in
  _format_context docs.

Definition retrieve_for_evaluation (self : ContextRetriever)
    (question candidate_answer : string) : string :=
  let combined_query := question +:+ " " +:+ candidate_answer in
  let docs := retrieve self combined_query None (Some 4) in
  _format_context docs.

(** ** Values used in the examples *)

Definition two_documents : list (Document * Q) :=
  [({| page_content := "  Arrays are contiguous. ";
       metadata := {[ "category" := MStr "technical" ]} |}, 1 # 10);
   ({| page_content := "Tell a story."; metadata := ∅ |}, 2 # 10)].

End Context.

(** * Loading a directory ([src/rag/loader.py]) *)

Module Directory.
Import Py Doc Loader.

(** What [load_directory] reads from the file system besides the files:
    [path.is_dir()], [path.glob(pattern)], and the order in which the set
    [SUPPORTED_EXTENSIONS] is iterated. *)
Record Dirs : Type := mkDirs {
  is_dir : Path -> bool;
  glob : Path -> string -> list Path;
  extensions : list string
}.

(** The loop over the files of one extension. *)
Fixpoint load_files (env : Env) (self : DocumentLoader)
    (documents : list Document) (files : list Path) : result (list Document) :=
  match files with
  | [] => Ok documents
  | file_path :: rest =>
      let* docs := load_file env self file_path in
      load_files env self (documents ++ docs) rest
  end.

(** The loop over the extensions. *)
Fixpoint load_extensions (env : Env) (dirs : Dirs) (self : DocumentLoader)
    (target_dir : Path) (pattern : string)
    (documents : list Document) (exts : list string) : result (list Document) :=
  match exts with
  | [] => Ok documents
  | ext :: rest =>
      let* documents' :=
        load_files env self documents (glob dirs target_dir (pattern +:+ ext)) in
      load_extensions env dirs self target_dir pattern documents' rest
  end.

Definition load_directory (env : Env) (dirs : Dirs) (self : DocumentLoader)
    (directory : option Path) (recursive : bool) : result (list Document) :=
  let target_dir :=
    match directory with
    | Some d => _resolve_path self d
    | None => base_path self
    end in
  if negb (is_dir dirs target_dir) then Ok []
  else
    let pattern := if recursive then "**/*" else "*" in
    load_extensions env dirs self target_dir pattern [] (extensions dirs).

(** [path] lies in or below [dir]: what [dir.glob] yields. *)
Definition below (dir path : Path) : Prop :=
  is_absolute path = is_absolute dir /\
  exists relative, names path = names dir ++ relative.

(** ** Values used in the examples *)

(** A knowledge directory with one markdown file, found by its glob. *)
Definition one_file_dirs (base : Path) : Dirs :=
  {| is_dir := fun _ => true;
     glob := fun dir pattern =>
       if String.eqb pattern "**/*.md"
       then [{| is_absolute := is_absolute dir;
                names := names dir ++ ["technical"; "arrays.md"] |}]
       else [];
     extensions := [".md"; ".txt"; ".pdf"] |}.

(** The files that exist are the ones directly below [knowledge/technical]. *)
Definition knowledge_env : Env :=
  {| exists_ := fun p =>
       match names p with
       | ["knowledge"; "technical"; _] => true
       | _ => false
       end;
     read_text := fun _ => Ok "# Arrays";
     pypdf_installed := true;
     pdf_pages := fun _ => Ok [] |}.

Definition absolute_knowledge : DocumentLoader :=
  {| base_path := {| is_absolute := true; names := ["knowledge"] |} |}.

End Directory.

(** * The vector store manager ([src/rag/vectorstore.py]) *)

Module VectorStore.
Import Py Doc.

(** [range(0, stop, step)] for a [stop] that is a length *)
Definition range0 (stop : nat) (step : Z) : result (list Z) :=
  if step =? 0 then Raise ValueError
  else if step <? 0 then Ok []
  else
    let count := Z.to_nat ((Z.of_nat stop + step - 1) / step) in
    Ok (map (fun j => Z.of_nat j * step) (seq 0 count)).

(** The bound [i] of a slice of a list of length [n] *)
Definition slice_bound (n : nat) (i : Z) : nat :=
  if i <? 0 then Z.to_nat (Z.max 0 (Z.of_nat n + i))
  else Z.to_nat (Z.min (Z.of_nat n) i).

(** [xs[i:j]] *)
Definition slice {A} (i j : Z) (xs : list A) : list A :=
  let lo := slice_bound (length xs) i in
  let hi := slice_bound (length xs) j in
  take (hi - lo) (drop lo xs).

(** The collection behind the manager, with a state of its own:
    [add_documents(batch)] embeds and stores a batch and answers with its
    ids, or raises; either way it leaves a state. *)
Record Chroma (S : Type) : Type := mkChroma {
  chroma_add_documents : list Document -> S -> result (list string) * S
}.
Arguments chroma_add_documents {S} _ _ _.

(** The loop over the batch starts. *)
Fixpoint add_batches {S} (store : Chroma S) (documents : list Document)
    (batch_size : Z) (starts : list Z) (all_ids : list string) (s : S)
  : result (list string) * S :=
  match starts with
  | [] => (Ok all_ids, s)
  | i :: rest =>
      let batch := slice i (i + batch_size) documents in
      match chroma_add_documents store batch s with
      | (Ok ids, s') =>
          add_batches store documents batch_size rest (all_ids ++ ids) s'
      | (Raise e, s') => (Raise e, s')
      end
  end.

Definition add_documents {S} (store : Chroma S) (documents : list Document)
    (batch_size : Z) (s : S) : result (list string) * S :=
  match documents with
  | [] => (Ok [], s)
  | _ =>
      match range0 (length documents) batch_size with
      | Raise e => (Raise e, s)
      | Ok starts => add_batches store documents batch_size starts [] s
      end
  end.

(** The batches of a call, in the order in which the collection gets them. *)
Definition batches (documents : list Document) (batch_size : Z)
  : list (list Document) :=
  match range0 (length documents) batch_size with
  | Ok starts => map (fun i => slice i (i + batch_size) documents) starts
  | Raise _ => []
  end.

(** A collection that keeps the batches it was given, names the documents
    of a batch by their contents, and fails on a batch that holds a document
    without content. *)
Definition logging_chroma : Chroma (list (list Document)) :=
  {| chroma_add_documents := fun batch log =>
       if existsb (fun d => String.eqb (page_content d) "") batch
       then (Raise OSError, log)
       else (Ok (map page_content batch), log ++ [batch]) |}.

Definition plain (content : string) : Document :=
  {| page_content := content; metadata := ∅ |}.

End VectorStore.

(** * The room metadata of a session ([src/agent/main.py]) *)

Module Room.
Import Py.

#[local] Set Warnings "-register-all".

(** A decoded JSON document. *)
Inductive json : Type :=
| JNull
| JBool (b : bool)
| JNumber (n : Q)
| JString (s : string)
| JArray (items : list json)
| JObject (fields : list (string * json)).

(** What can be raised in the block that reads the metadata: by
    [json.loads], for a text that is not JSON or that is nested too deep,
    and by [get] on a value that has no such method. *)
Inductive failure : Type :=
| JSONDecodeError
| RecursionError
| AttributeError.

Inductive outcome (A : Type) : Type :=
| Returns (a : A)
| Fails (e : failure).
Arguments Returns {A} a.
Arguments Fails {A} e.

(** The last value of a key in the fields of an object, as [json.loads]
    keeps it. *)
Fixpoint field (key : string) (fields : list (string * json)) : option json :=
  match fields with
  | [] => None
  | (k, v) :: rest =>
      match field key rest with
      | Some v' => Some v'
      | None => if String.eqb k key then Some v else None
      end
  end.

(** [value.get(key, default)]: only an object has the method. *)
Definition get (value : json) (key : string) (fallback : json) : outcome json :=
  match value with
  | JObject fields => Returns (default fallback (field key fields))
  | _ => Fails AttributeError
  end.

(** Lines 81 to 91 of [entrypoint]: the interview type and the candidate
    information that the session starts with. [loads] is [json.loads]; of
    what it raises, the block catches [JSONDecodeError] only. *)
Definition read_metadata (loads : string -> outcome json)
    (metadata : option string) : outcome (json * json) :=
  let interview_type := JString "behavioral" in
  let candidate_info := JString "" in
  match metadata with
  | Some (String c r) =>
      match loads (String c r) with
      | Fails JSONDecodeError => Returns (interview_type, candidate_info)
      | Fails e => Fails e
      | Returns decoded =>
          match get decoded "interview_type" (JString "behavioral") with
          | Fails e => Fails e
          | Returns interview_type' =>
              match get decoded "candidate_info" (JString "") with
              | Fails e => Fails e
              | Returns candidate_info' =>
                  Returns (interview_type', candidate_info')
              end
          end
      end
  | _ => Returns (interview_type, candidate_info)
  end.

End Room.

(** * The prompts ([src/agent/prompts.py]) *)

Module Prompts.
Import Py.

(** The double quote, as a string. *)
Definition dq : string := String (ascii_of_nat 34) EmptyString.

(** [BASE_SYSTEM_PROMPT], cut at its two replacement fields: the text before
    [{context}], the text between it and [{candidate_info}], and the text
    after. The template has no other brace. *)
Definition BASE_before_context : string :=
  "You are Alex, an expert AI interview coach at InterviewPilot. You conduct realistic mock interviews to help candidates prepare for their dream jobs." +:+ nl +:+
  nl +:+
  "## Your Personality" +:+ nl +:+
  "- Warm, encouraging, but professionally rigorous" +:+ nl +:+
  "- Adapt your tone based on candidate's experience level" +:+ nl +:+
  "- Provide real-time micro-feedback when appropriate" +:+ nl +:+
  "- Celebrate good answers while noting areas for improvement" +:+ nl +:+
  nl +:+
  "## Interview Guidelines" +:+ nl +:+
  "1. Start with a friendly greeting and explain the interview format" +:+ nl +:+
  "2. Ask one question at a time, allow natural pauses" +:+ nl +:+
  "3. Use follow-up questions to probe deeper" +:+ nl +:+
  "4. Track time - keep the session focused" +:+ nl +:+
  "5. Provide brief feedback after each answer" +:+ nl +:+
  "6. End with a summary and actionable improvement tips" +:+ nl +:+
  nl +:+
  "## Current Session Context" +:+ nl.

Definition BASE_before_candidate_info : string :=
  nl +:+
  nl +:+
  "## Candidate Information" +:+ nl.

Definition BASE_after_candidate_info : string :=
  nl.

(** [BASE_SYSTEM_PROMPT.format(context=..., candidate_info=...)]: the values
    are put in as they are. *)
Definition BASE_SYSTEM_PROMPT_format (context candidate_info : string) : string :=
  BASE_before_context +:+ context +:+ BASE_before_candidate_info +:+
  candidate_info +:+ BASE_after_candidate_info.

Definition BEHAVIORAL_PROMPT : string :=
  "## Interview Type: Behavioral" +:+ nl +:+
  nl +:+
  "You are conducting a behavioral interview focused on past experiences and soft skills." +:+ nl +:+
  nl +:+
  "### Focus Areas" +:+ nl +:+
  "- Leadership and teamwork" +:+ nl +:+
  "- Conflict resolution" +:+ nl +:+
  "- Problem-solving approach" +:+ nl +:+
  "- Communication skills" +:+ nl +:+
  "- Adaptability and learning" +:+ nl +:+
  nl +:+
  "### Question Framework" +:+ nl +:+
  "Encourage the STAR method (Situation, Task, Action, Result) but don't be rigid." +:+ nl +:+
  "If the candidate gives a vague answer, probe for specifics:" +:+ nl +:+
  "- " +:+ dq +:+ "Can you tell me more about your specific role?" +:+ dq +:+ nl +:+
  "- " +:+ dq +:+ "What was the outcome of that decision?" +:+ dq +:+ nl +:+
  "- " +:+ dq +:+ "Looking back, what would you do differently?" +:+ dq +:+ nl +:+
  nl +:+
  "### Evaluation Criteria" +:+ nl +:+
  "- Clarity of the story" +:+ nl +:+
  "- Specificity of examples" +:+ nl +:+
  "- Self-awareness and reflection" +:+ nl +:+
  "- Relevance to the question" +:+ nl +:+
  "- Communication structure" +:+ nl +:+
  nl +:+
  "### Sample Opening" +:+ nl +:+
  dq +:+ "Welcome! Today we'll be doing a behavioral interview. I'll ask you about specific situations from your past experience. Try to give me concrete examples - the more specific, the better. Ready to begin?" +:+ dq +:+ nl.

Definition TECHNICAL_PROMPT : string :=
  "## Interview Type: Technical" +:+ nl +:+
  nl +:+
  "You are conducting a technical interview focused on problem-solving and coding." +:+ nl +:+
  nl +:+
  "### Focus Areas" +:+ nl +:+
  "- Problem understanding and clarification" +:+ nl +:+
  "- Approach explanation before coding" +:+ nl +:+
  "- Time and space complexity analysis" +:+ nl +:+
  "- Edge case handling" +:+ nl +:+
  "- Code quality and optimization" +:+ nl +:+
  nl +:+
  "### Interview Flow" +:+ nl +:+
  "1. Present the problem clearly" +:+ nl +:+
  "2. Encourage clarifying questions" +:+ nl +:+
  "3. Ask for approach before implementation" +:+ nl +:+
  "4. Guide through hints if stuck (don't give away solutions)" +:+ nl +:+
  "5. Discuss complexity after solution" +:+ nl +:+
  "6. Explore follow-ups and optimizations" +:+ nl +:+
  nl +:+
  "### Coaching Style" +:+ nl +:+
  "- " +:+ dq +:+ "What's your initial thought on approaching this?" +:+ dq +:+ nl +:+
  "- " +:+ dq +:+ "Before we code, can you walk me through your strategy?" +:+ dq +:+ nl +:+
  "- " +:+ dq +:+ "What's the time complexity of that approach?" +:+ dq +:+ nl +:+
  "- " +:+ dq +:+ "How would you handle the edge case of an empty input?" +:+ dq +:+ nl +:+
  nl +:+
  "### Sample Opening" +:+ nl +:+
  dq +:+ "Great to meet you! Today we'll work through some technical problems together. I'm more interested in your problem-solving process than getting a perfect answer. Feel free to think out loud. Let's start!" +:+ dq +:+ nl.

Definition SYSTEM_DESIGN_PROMPT : string :=
  "## Interview Type: System Design" +:+ nl +:+
  nl +:+
  "You are conducting a system design interview for senior engineering roles." +:+ nl +:+
  nl +:+
  "### Focus Areas" +:+ nl +:+
  "- Requirements gathering and scope definition" +:+ nl +:+
  "- High-level architecture" +:+ nl +:+
  "- Component deep dives" +:+ nl +:+
  "- Scalability and reliability" +:+ nl +:+
  "- Trade-off discussions" +:+ nl +:+
  nl +:+
  "### Interview Flow" +:+ nl +:+
  "1. Present an open-ended design problem" +:+ nl +:+
  "2. Let candidate drive - they should ask questions" +:+ nl +:+
  "3. Probe on specific components when relevant" +:+ nl +:+
  "4. Discuss scalability challenges" +:+ nl +:+
  "5. Explore failure modes and reliability" +:+ nl +:+
  "6. Ask about monitoring and operations" +:+ nl +:+
  nl +:+
  "### Probing Questions" +:+ nl +:+
  "- " +:+ dq +:+ "What are the most important requirements to handle first?" +:+ dq +:+ nl +:+
  "- " +:+ dq +:+ "How would this scale to 10x the users?" +:+ dq +:+ nl +:+
  "- " +:+ dq +:+ "What happens if this component fails?" +:+ dq +:+ nl +:+
  "- " +:+ dq +:+ "What are the trade-offs of that approach?" +:+ dq +:+ nl +:+
  "- " +:+ dq +:+ "How would you monitor this in production?" +:+ dq +:+ nl +:+
  nl +:+
  "### Sample Opening" +:+ nl +:+
  dq +:+ "Today we're going to design a system together. I'll give you a problem, and I want you to drive the conversation. Ask clarifying questions, make assumptions explicit, and walk me through your thinking. Ready?" +:+ dq +:+ nl.

Definition INTERVIEW_PROMPTS : gmap string string :=
  {[ "behavioral" := BEHAVIORAL_PROMPT;
     "technical" := TECHNICAL_PROMPT;
     "system_design" := SYSTEM_DESIGN_PROMPT ]}.

(** [s or default] for a string: the empty string is falsy *)
Definition or_else (s default : string) : string :=
  match s with
  | EmptyString => default
  | _ => s
  end.

(** The default of the parameter [candidate_info], for a call without it. *)
Definition default_candidate_info : string := "No specific information provided.".

Definition get_system_prompt (interview_type context candidate_info : string)
  : string :=
  let base :=
    BASE_SYSTEM_PROMPT_format (or_else context "No additional context.")
      candidate_info in
  let type_prompt :=
    default BEHAVIORAL_PROMPT (INTERVIEW_PROMPTS !! interview_type) in
  base +:+ nl +:+ nl +:+ type_prompt.

End Prompts.

(** * The feedback lines of a reply, line by line ([src/agent/evaluator.py]) *)

Module Feedback.
Import Py Evaluator.

(** The text after the first colon of a line, trimmed, when there is a colon
    and the text is not empty. *)
Definition colon_text (line : string) : option string :=
  match split_once ":" line with
  | [_; after] =>
      match strip after with
      | EmptyString => None
      | text => Some text
      end
  | _ => None
  end.

(** What a line adds to the strengths, and to the improvements. *)
Definition strength_of (line : string) : option string :=
  if contains "strength" (lower line) then colon_text line else None.

Definition improvement_of (line : string) : option string :=
  if existsb (fun word => contains word (lower line)) improvement_words
  then colon_text line
  else None.

(** All the characters of a string satisfy [p]. *)
Fixpoint all_chars (p : ascii -> bool) (s : string) : bool :=
  match s with
  | EmptyString => true
  | String c s' => p c && all_chars p s'
  end.

(** The characters that the parser strips from a token. *)
Definition decoration (c : ascii) : bool := mem_char c "():/".

Definition nonspace (c : ascii) : bool := negb (isspace c).

Definition not_newline (c : ascii) : bool := negb (Ascii.eqb c newline).

(** The decimal numerals of the scores 1 to 10. *)
Definition numeral (n : Z) : string := pretty n.

(** A session that was ended at time 5 with one score. *)
Definition ended_session : SessionMetrics :=
  {| session_id := "s1"; interview_type := "technical"; started_at := 0;
     ended_at := Some 5; total_questions := 0; questions_answered := 1;
     average_score := 8; scores := [bare_score 8 "Score: 8"];
     total_speaking_time_seconds := 0; average_response_time_seconds := 0 |}.

End Feedback.

(** * The keys that chunking sets ([src/rag/chunker.py]) *)

Module ChunkKeys.
Import Py Doc Chunker.

(** The keys of the metadata that [_enhance_metadata] writes. *)
Definition chunk_keys : list string :=
  ["chunk_index"; "total_chunks"; "chunk_size"; "is_first_chunk";
   "is_last_chunk"; "content_type"].

(** A document is short for a chunker when it goes through unsplit. *)
Definition short (self : SemanticChunker) (document : Document) : Prop :=
  len (page_content document) <= chunk_size self.

(** A short question-and-answer document that begins with an empty line. *)
Definition blank_first_document : Document :=
  {| page_content := nl +:+ "Q: What is a heap?" +:+ nl +:+ "A: A tree.";
     metadata := {[ "category" := MStr "technical" ]} |}.

End ChunkKeys.

(** * What the loader gives, file by file ([src/rag/loader.py]) *)

Module Loaded.
Import Py Doc Loader Directory.

(** The document of page [i] of a PDF, counted from 0, when the page has
    text that is not blank. *)
Definition page_document (path : Path) (category : string) (i : nat)
    (text : string) : option Document :=
  match strip text with
  | EmptyString => None
  | String _ _ =>
      Some {| page_content := text;
              metadata := {[ "source" := MStr (path_str path);
                             "filename" := MStr (name path);
                             "category" := MStr category;
                             "file_type" := MStr ".pdf";
                             "page" := MInt (Z.of_nat i + 1) ]} |}
  end.

(** The documents of the pages of a PDF, the first of which is page [first]. *)
Definition page_documents (path : Path) (category : string) (first : nat)
    (texts : list string) : list Document :=
  omap id (imap (fun j => page_document path category (first + j)) texts).

(** The directory that [load_directory] scans. *)
Definition target_dir (self : DocumentLoader) (directory : option Path) : Path :=
  match directory with
  | Some d => _resolve_path self d
  | None => base_path self
  end.

(** The files that [load_directory] finds, in the order of its two loops. *)
Definition globbed (dirs : Dirs) (target : Path) (recursive : bool) : list Path :=
  flat_map
    (fun ext => glob dirs target ((if recursive then "**/*" else "*") +:+ ext))
    (extensions dirs).

(** A PDF of three pages, the second of which is blank. *)
Definition three_pages_env : Env :=
  {| exists_ := fun _ => true;
     read_text := fun _ => Raise OSError;
     pypdf_installed := true;
     pdf_pages := fun _ => Ok [Ok "Heaps"; Ok "  "; Ok "Tries"] |}.

Definition guide_pdf : Path :=
  {| is_absolute := false; names := ["technical"; "guide.PDF"] |}.

End Loaded.

(** * The calls that reach the collection ([src/rag/vectorstore.py]) *)

Module Calls.
Import Py Doc VectorStore.

(** One call of the collection's [add_documents]: the batch it was given
    and what it answered. *)
Definition call : Type := (list Document * result (list string))%type.

(** A collection that also keeps the calls made to it, in order. *)
Definition recording {S} (store : Chroma S) : Chroma (S * list call) :=
  {| chroma_add_documents := fun batch st =>
       let '(r, s') := chroma_add_documents store batch st.1 in
       (r, (s', st.2 ++ [(batch, r)])) |}.

Definition three_documents : list Document := [plain "a"; plain "b"; plain "c"].

(** Three documents the last of which the collection refuses. *)
Definition refused_last : list Document := [plain "a"; plain "b"; plain ""].

End Calls.

(** * The trend of a session and the order of its scores
      ([src/agent/evaluator.py]) *)

Module Trend.
Import Py Evaluator.

(** The trend read in the other direction. *)
Definition opposite (trend : string) : string :=
  if String.eqb trend "improving" then "declining"
  else if String.eqb trend "declining" then "improving"
  else trend.

(** The session with its scores in the reverse order. *)
Definition backwards (self : SessionMetrics) : SessionMetrics :=
  {| session_id := session_id self;
     interview_type := interview_type self;
     started_at := started_at self;
     ended_at := ended_at self;
     total_questions := total_questions self;
     questions_answered := questions_answered self;
     average_score := average_score self;
     scores := reverse (scores self);
     total_speaking_time_seconds := total_speaking_time_seconds self;
     average_response_time_seconds := average_response_time_seconds self |}.

End Trend.

(** * Properties *)

(** ** The string primitives *)

Module PyFacts.
Import Py.

Lemma int_raises_ValueError s e : int s = Raise e -> e = ValueError.
Proof.
  unfold int.
  destruct (strip s) as [|c r]; simpl.
  - intros H. injection H as <-. reflexivity.
  - destruct (match c with
              | "-"%char => (true, r)
              | "+"%char => (false, r)
              | _ => (false, String c r)
              end) as [neg body].
    destruct (int_max_str_digits <? count_digits body)%nat.
    + intros H. injection H as <-. reflexivity.
    + destruct (int_digits 0 false body); [discriminate|].
      intros H. injection H as <-. reflexivity.
Qed.

Lemma lstrip_by_first p s c :
  first_char (lstrip_by p s) = Some c -> p c = false.
Proof.
  induction s as [|d s IH]; simpl; [discriminate|].
  destruct (p d) eqn:Hd; [assumption|].
  simpl. intros H. injection H as <-. assumption.
Qed.

Lemma rstrip_by_last p s c :
  last_char (rstrip_by p s) = Some c -> p c = false.
Proof.
  induction s as [|d s IH]; simpl; [discriminate|].
  destruct (rstrip_by p s) as [|e r] eqn:Hr.
  - destruct (p d) eqn:Hd; simpl; [discriminate|].
    intros H. injection H as <-. assumption.
  - intros H. apply IH. exact H.
Qed.

Lemma rstrip_by_first p s c :
  first_char (rstrip_by p s) = Some c -> first_char s = Some c.
Proof.
  destruct s as [|d s]; simpl; [discriminate|].
  destruct (rstrip_by p s); [destruct (p d)|]; simpl; congruence.
Qed.

Lemma strip_by_trimmed p s :
  (forall c, first_char (strip_by p s) = Some c -> p c = false) /\
  (forall c, last_char (strip_by p s) = Some c -> p c = false).
Proof.
  unfold strip_by. split; intros c H.
  - apply rstrip_by_first in H. eapply lstrip_by_first; eassumption.
  - eapply rstrip_by_last; eassumption.
Qed.

Lemma strip_trimmed s : trimmed (strip s).
Proof. apply strip_by_trimmed. Qed.

Lemma lstrip_by_id p s :
  (forall c, first_char s = Some c -> p c = false) -> lstrip_by p s = s.
Proof.
  destruct s as [|d s]; simpl; [reflexivity|].
  intros H. rewrite (H d eq_refl). reflexivity.
Qed.

Lemma rstrip_by_id p s :
  (forall c, last_char s = Some c -> p c = false) -> rstrip_by p s = s.
Proof.
  induction s as [|d s IH]; simpl; [reflexivity|].
  intros H. destruct s as [|e s].
  - simpl. rewrite (H d eq_refl). reflexivity.
  - rewrite IH by exact H. reflexivity.
Qed.

(** [strip] leaves a trimmed string as it is, so it is idempotent. *)
Lemma strip_of_trimmed s : trimmed s -> strip s = s.
Proof.
  intros [Hf Hl]. unfold strip, strip_by.
  rewrite lstrip_by_id by exact Hf. apply rstrip_by_id, Hl.
Qed.

Lemma strip_idempotent s : strip (strip s) = strip s.
Proof. apply strip_of_trimmed, strip_trimmed. Qed.

Lemma split_once_contains sep s :
  contains (String sep EmptyString) s = true ->
  exists a b, split_once sep s = [a; b].
Proof.
  induction s as [|c s IH]; simpl.
  - discriminate.
  - destruct (Ascii.eqb c sep) eqn:Hc.
    + intros _. eauto.
    + rewrite Ascii.eqb_sym in Hc.
      destruct (ascii_dec sep c) as [->|Hne].
      { rewrite Ascii.eqb_refl in Hc. discriminate. }
      simpl. intros H. destruct (IH H) as (a & b & ->). eauto.
Qed.

Lemma split_on_nonempty sep s : split_on sep s <> [].
Proof.
  destruct s as [|c s]; simpl; [discriminate|].
  destruct (Ascii.eqb c sep); [discriminate|].
  destruct (split_on sep s); discriminate.
Qed.

Lemma slice_to_nonneg {A} (n : Z) (xs : list A) :
  0 <= n -> slice_to n xs = take (Z.to_nat n) xs.
Proof. intros H. unfold slice_to. destruct (Z.leb_spec 0 n); [reflexivity|lia]. Qed.



End PyFacts.

(** ** The response evaluator *)

Module EvaluatorFacts.
Import Py PyFacts Evaluator.

Lemma scan_words_ok ws : exists r, scan_words ws = Ok r.
Proof.
  induction ws as [|w ws IH]; simpl; [eauto|].
  destruct (int (strip_chars "():/" w)) as [num|e] eqn:Hint.
  - destruct ((1 <=? num) && (num <=? 10)); eauto.
  - apply int_raises_ValueError in Hint as ->. exact IH.
Qed.

(** What a successful scan found is a score between 1 and 10. *)
Lemma scan_words_range ws num :
  scan_words ws = Ok (Some num) -> 1 <= num <= 10.
Proof.
  induction ws as [|w ws IH]; simpl; [discriminate|].
  destruct (int (strip_chars "():/" w)) as [n|e] eqn:Hint.
  - destruct ((1 <=? n) && (n <=? 10)) eqn:Hr; [|exact IH].
    intros H. injection H as <-. lia.
  - destruct e; try discriminate. exact IH.
Qed.

Lemma colon_content_ok line :
  contains ":" line = true -> exists c, colon_content line = Ok c.
Proof.
  intros H. destruct (split_once_contains ":" line H) as (a & b & Hs).
  unfold colon_content. rewrite Hs. simpl. eauto.
Qed.

Lemma extract_score_ok score line : exists s, extract_score score line = Ok s.
Proof.
  unfold extract_score.
  destruct (contains "score" (lower line) || contains "/10" line); [|eauto].
  destruct (scan_words_ok (split line)) as [r ->]. simpl. eauto.
Qed.

Lemma extract_strengths_ok acc line : exists s, extract_strengths acc line = Ok s.
Proof.
  unfold extract_strengths.
  destruct (contains "strength" (lower line)); simpl; [|eauto].
  destruct (contains ":" line) eqn:Hc; [|eauto].
  destruct (colon_content_ok line Hc) as [c ->]. simpl. eauto.
Qed.

Lemma extract_improvements_ok acc line :
  exists s, extract_improvements acc line = Ok s.
Proof.
  unfold extract_improvements.
  destruct (existsb _ improvement_words); [|eauto].
  destruct (contains ":" line) eqn:Hc; [|eauto].
  destruct (colon_content_ok line Hc) as [c ->]. simpl. eauto.
Qed.

Lemma parse_line_ok st line : exists st', parse_line st line = Ok st'.
Proof.
  destruct st as [[score strs] imps]. unfold parse_line.
  destruct (extract_score_ok score line) as [s ->].
  destruct (extract_strengths_ok strs line) as [s' ->].
  destruct (extract_improvements_ok imps line) as [s'' ->].
  simpl. eauto.
Qed.

Lemma parse_lines_ok lines : forall st, exists st', parse_lines st lines = Ok st'.
Proof.
  induction lines as [|l lines IH]; intros st; simpl; [eauto|].
  destruct (parse_line_ok st l) as [st' ->]. simpl. apply IH.
Qed.

(** [_parse_evaluation] returns on every reply, and keeps the reply as
    [raw_feedback]. *)
Lemma parse_evaluation_ok evaluation :
  exists r, _parse_evaluation evaluation = Ok r /\ raw_feedback r = evaluation.
Proof.
  unfold _parse_evaluation.
  destruct (parse_lines_ok (split_on newline evaluation) (7, [], []))
    as [[[score strs] imps] ->].
  simpl. eauto.
Qed.

Lemma add_score_ok m s : exists m', add_score m s = Ok m'.
Proof.
  unfold add_score. rewrite length_app. simpl length.
  replace (Z.of_nat (length (scores m) + 1)) with
    (Z.pos (Pos.of_succ_nat (length (scores m)))) by lia.
  simpl. eauto.
Qed.

Lemma generate_evaluation_ok client q r :
  exists e, _generate_evaluation client q r = Ok e.
Proof.
  unfold _generate_evaluation, try_except.
  destruct (completion_content client q r); eauto.
Qed.


Lemma parse_line_score score strs imps line st' :
  parse_line (score, strs, imps) line = Ok st' ->
  st'.1.1 = from_option id score (line_score line).
Proof.
  unfold parse_line, line_score, extract_score.
  destruct (contains "score" (lower line) || contains "/10" line).
  - destruct (scan_words (split line)) as [found|e]; [|discriminate].
    simpl.
    destruct (extract_strengths strs line); [|discriminate].
    destruct (extract_improvements imps line); [|discriminate].
    simpl. intros H. injection H as <-. destruct found; reflexivity.
  - simpl.
    destruct (extract_strengths strs line); [|discriminate].
    destruct (extract_improvements imps line); [|discriminate].
    simpl. intros H. injection H as <-. reflexivity.
Qed.

Lemma parse_lines_score lines : forall st st',
  parse_lines st lines = Ok st' -> st'.1.1 = last_score st.1.1 lines.
Proof.
  induction lines as [|l lines IH]; intros st st'; simpl.
  - intros H. injection H as <-. reflexivity.
  - destruct (parse_line st l) as [st1|e] eqn:Hl; [|discriminate].
    simpl. intros H. rewrite (IH _ _ H).
    destruct st as [[score strs] imps].
    rewrite (parse_line_score _ _ _ _ _ Hl). reflexivity.
Qed.

(** The score of a reply is the one of its last contributing line. *)
Lemma parse_evaluation_overall evaluation r :
  _parse_evaluation evaluation = Ok r ->
  overall r = last_score 7 (split_on newline evaluation).
Proof.
  unfold _parse_evaluation.
  destruct (parse_lines (7, [], []) (split_on newline evaluation))
    as [[[score strs] imps]|e] eqn:Hp; [|discriminate].
  simpl. intros H. injection H as <-. simpl.
  apply (parse_lines_score _ _ _ Hp).
Qed.

Lemma last_score_app d l1 l2 :
  last_score d (l1 ++ l2) = last_score (last_score d l1) l2.
Proof. unfold last_score. apply foldl_app. Qed.

Lemma last_score_none d lines :
  Forall (fun l => line_score l = None) lines -> last_score d lines = d.
Proof.
  intros H. revert d. induction H as [|l lines Hl _ IH]; intros d; [reflexivity|].
  unfold last_score in *. simpl. rewrite Hl. simpl. apply IH.
Qed.

(** No contributing line: the default. *)
Lemma parse_evaluation_default evaluation r :
  _parse_evaluation evaluation = Ok r ->
  Forall (fun l => line_score l = None) (split_on newline evaluation) ->
  overall r = 7.
Proof.
  intros H Hn. rewrite (parse_evaluation_overall _ _ H).
  apply last_score_none, Hn.
Qed.

(** A contributing line followed by lines that contribute nothing decides
    the score, whatever came before it. *)
Lemma parse_evaluation_last_wins evaluation r before line after num :
  _parse_evaluation evaluation = Ok r ->
  split_on newline evaluation = before ++ line :: after ->
  line_score line = Some num ->
  Forall (fun l => line_score l = None) after ->
  overall r = num.
Proof.
  intros H Hs Hl Hn. rewrite (parse_evaluation_overall _ _ H), Hs.
  rewrite last_score_app. unfold last_score at 1. simpl. rewrite Hl. simpl.
  apply last_score_none, Hn.
Qed.

Lemma line_score_range line num : line_score line = Some num -> 1 <= num <= 10.
Proof.
  unfold line_score.
  destruct (contains "score" (lower line) || contains "/10" line); [|discriminate].
  destruct (scan_words (split line)) as [found|e] eqn:Hs; [|discriminate].
  intros ->. apply (scan_words_range _ _ Hs).
Qed.

Example parse_score_plain :
  _parse_evaluation "Score: 8" =
  Ok {| overall := 8; strengths := []; improvements := [];
        raw_feedback := "Score: 8" |}.
Proof. vm_compute. reflexivity. Qed.

Example parse_score_spaced_slash :
  _parse_evaluation "Score: 8 /10" =
  Ok {| overall := 8; strengths := []; improvements := [];
        raw_feedback := "Score: 8 /10" |}.
Proof. vm_compute. reflexivity. Qed.

Example parse_no_score :
  _parse_evaluation "A solid answer overall." =
  Ok {| overall := 7; strengths := []; improvements := [];
        raw_feedback := "A solid answer overall." |}.
Proof. vm_compute. reflexivity. Qed.

Example parse_strengths_line :
  _parse_evaluation "Strengths: Clear structure" =
  Ok {| overall := 7; strengths := ["Clear structure"]; improvements := [];
        raw_feedback := "Strengths: Clear structure" |}.
Proof. vm_compute. reflexivity. Qed.

Example parse_last_line_wins :
  option_map overall
    (match _parse_evaluation ("Score: 3" +:+ nl +:+ "Final score: 9") with
     | Ok r => Some r
     | Raise _ => None
     end) = Some 9.
Proof. vm_compute. reflexivity. Qed.

(** The token "8/10" is not an integer for [int], before and after the
    strip: the slash is inside the token. *)
Example int_slash_token :
  strip_chars "():/" "8/10" = "8/10" /\ int "8/10" = Raise ValueError.
Proof. split; vm_compute; reflexivity. Qed.

(** C1. On the line "Score: 8/10" the parser finds no score and keeps the
    default: the tokens are "Score:" and "8/10", stripping [()/:] from their
    ends leaves "Score" and "8/10", and neither is an integer literal. The
    reply is scored 7, not the 8 that it states. *)
Theorem parse_evaluation_score_slash_ten :
  _parse_evaluation "Score: 8/10" =
  Ok {| overall := 7; strengths := []; improvements := [];
        raw_feedback := "Score: 8/10" |}.
Proof. vm_compute. reflexivity. Qed.

(** ** The scoring call and the session map *)

Lemma parse_fallback_reply :
  _parse_evaluation "Unable to evaluate response." = Ok default_score.
Proof. vm_compute. reflexivity. Qed.

Lemma generate_evaluation_failure client q r :
  raises (completion_content client q r) ->
  _generate_evaluation client q r = Ok "Unable to evaluate response.".
Proof.
  unfold _generate_evaluation, try_except, raises.
  destruct (completion_content client q r); [contradiction|reflexivity].
Qed.

Lemma evaluate_response_ok client sessions sid q r :
  exists out, evaluate_response client sessions sid q r = Ok out.
Proof.
  unfold evaluate_response.
  destruct (generate_evaluation_ok client q r) as [e ->]. simpl.
  destruct (parse_evaluation_ok e) as [score [-> _]]. simpl.
  destruct (sessions !! sid) as [m|].
  - destruct (add_score_ok m score) as [m' ->]. simpl. eauto.
  - simpl. eauto.
Qed.

(** C6. [evaluate_response] returns on every input; when the scoring call
    fails (the client raises, or answers with no choice), what it returns is
    the score 7 with the feedback "Unable to evaluate response." and no
    strengths or improvements. *)
Theorem evaluate_response_llm_failure client sessions sid q r :
  (exists out, evaluate_response client sessions sid q r = Ok out) /\
  (raises (completion_content client q r) ->
   exists sessions',
     evaluate_response client sessions sid q r =
     Ok ({| overall := 7; strengths := []; improvements := [];
            raw_feedback := "Unable to evaluate response." |}, sessions')).
Proof.
  split; [apply evaluate_response_ok|].
  intros Hfail. unfold evaluate_response.
  rewrite (generate_evaluation_failure _ _ _ Hfail). cbn [Py.bind].
  rewrite parse_fallback_reply. cbn [Py.bind].
  destruct (sessions !! sid) as [m|].
  - destruct (add_score_ok m default_score) as [m' ->]. simpl. eauto.
  - simpl. eauto.
Qed.

Lemma evaluate_response_llm_failure_witness :
  exists sessions',
    evaluate_response failing_client ∅ "s1" "Why hash maps?" "They are fast." =
    Ok ({| overall := 7; strengths := []; improvements := [];
           raw_feedback := "Unable to evaluate response." |}, sessions').
Proof.
  apply (proj2 (evaluate_response_llm_failure failing_client ∅ "s1"
                  "Why hash maps?" "They are fast.")).
  exact I.
Defined.

(** C10. For a session id that is not in the session map,
    [evaluate_response] returns the score parsed from the reply and leaves
    the map as it was. *)
Theorem evaluate_response_unknown_session client
    (sessions : gmap string SessionMetrics) sid q r :
  sessions !! sid = None ->
  exists evaluation score,
    _generate_evaluation client q r = Ok evaluation /\
    _parse_evaluation evaluation = Ok score /\
    evaluate_response client sessions sid q r = Ok (score, sessions).
Proof.
  intros Hnone. unfold evaluate_response.
  destruct (generate_evaluation_ok client q r) as [e He].
  destruct (parse_evaluation_ok e) as [score [Hs _]].
  exists e, score. rewrite He. simpl. rewrite Hs. simpl. rewrite Hnone.
  simpl. auto.
Qed.

Lemma evaluate_response_unknown_session_witness :
  exists evaluation score,
    _generate_evaluation (replying_client "Score: 9") "Q" "A" = Ok evaluation /\
    _parse_evaluation evaluation = Ok score /\
    evaluate_response (replying_client "Score: 9")
      {[ "s1" := open_session ]} "s2" "Q" "A" =
    Ok (score, {[ "s1" := open_session ]}).
Proof.
  apply (evaluate_response_unknown_session (replying_client "Score: 9")
           {[ "s1" := open_session ]} "s2" "Q" "A").
  apply lookup_singleton_ne. discriminate.
Defined.

(** A known session, by contrast, records the score. *)
Lemma evaluate_response_known_session client
    (sessions : gmap string SessionMetrics) sid q r m :
  sessions !! sid = Some m ->
  exists score m',
    add_score m score = Ok m' /\
    evaluate_response client sessions sid q r =
    Ok (score, <[sid := m']> sessions).
Proof.
  intros Hm. unfold evaluate_response.
  destruct (generate_evaluation_ok client q r) as [e ->]. simpl.
  destruct (parse_evaluation_ok e) as [score [-> _]]. simpl.
  rewrite Hm. destruct (add_score_ok m score) as [m' Hm'].
  exists score, m'. rewrite Hm'. simpl. auto.
Qed.

(** ** The session summary *)



Lemma elem_of_first_seen l x : x ∈ first_seen l <-> x ∈ l.
Proof.
  induction l as [|a l IH]; simpl; [reflexivity|].
  rewrite !elem_of_cons, list_elem_of_filter, IH.
  destruct (decide (x = a)) as [->|Hne]; tauto.
Qed.







Lemma truediv_mean xs :
  (0 < length xs)%nat ->
  truediv (sum_overall xs) (Z.of_nat (length xs)) = Ok (Qred (mean xs)).
Proof.
  intros H. unfold mean. destruct (length xs) as [|n]; [lia|].
  rewrite <- Pos.of_nat_succ. reflexivity.
Qed.

(** After [add_score] the stored average is the mean of the stored scores. *)
Lemma add_score_average m s m' :
  add_score m s = Ok m' ->
  scores m' = scores m ++ [s] /\
  questions_answered m' = questions_answered m + 1 /\
  (average_score m' == mean (scores m'))%Q.
Proof.
  unfold add_score. rewrite truediv_mean by (rewrite length_app; simpl; lia).
  simpl. intros H. injection H as <-. simpl.
  repeat split. apply Qred_correct.
Qed.


Lemma score_trend_halves m :
  (3 <= length (scores m))%nat ->
  let n := length (scores m) in
  let first_avg := Qred (mean (take (n / 2) (scores m))) in
  let second_avg := Qred (mean (drop (n / 2) (scores m))) in
  _score_trend m =
  Ok (if Qlt_le_dec (1 # 2) (second_avg - first_avg) then "improving"
      else if Qlt_le_dec (second_avg - first_avg) (- (1 # 2)) then "declining"
      else "stable").
Proof.
  intros H n first_avg second_avg. unfold _score_trend. fold n.
  destruct (Nat.ltb_spec n 3); [lia|].
  assert (1 <= n / 2 < n)%nat as Hhalf.
  { split.
    - apply Nat.div_le_lower_bound; lia.
    - apply Nat.div_lt; lia. }
  rewrite truediv_mean by (rewrite length_take; fold n; lia).
  rewrite truediv_mean by (rewrite length_drop; fold n; lia).
  cbn [Py.bind]. fold first_avg second_avg.
  destruct (Qlt_le_dec (1 # 2) (second_avg - first_avg)); [reflexivity|].
  destruct (Qlt_le_dec (second_avg - first_avg) (- (1 # 2))); reflexivity.
Qed.

Lemma score_trend_cases m :
  (3 <= length (scores m))%nat ->
  ((1 # 2 < half_diff (scores m))%Q -> _score_trend m = Ok "improving") /\
  ((half_diff (scores m) < - (1 # 2))%Q -> _score_trend m = Ok "declining") /\
  ((- (1 # 2) <= half_diff (scores m) <= 1 # 2)%Q -> _score_trend m = Ok "stable").
Proof.
  intros H. rewrite (score_trend_halves m H). unfold half_diff.
  set (n := length (scores m)).
  pose proof (Qred_correct (mean (take (n / 2) (scores m)))) as H1.
  pose proof (Qred_correct (mean (drop (n / 2) (scores m)))) as H2.
  set (a := Qred (mean (take (n / 2) (scores m)))) in *.
  set (b := Qred (mean (drop (n / 2) (scores m)))) in *.
  set (a' := mean (take (n / 2) (scores m))) in *.
  set (b' := mean (drop (n / 2) (scores m))) in *.
  repeat split; intros Hd.
  - destruct (Qlt_le_dec (1 # 2) (b - a)); [reflexivity|lra].
  - destruct (Qlt_le_dec (1 # 2) (b - a)); [lra|].
    destruct (Qlt_le_dec (b - a) (- (1 # 2))); [reflexivity|lra].
  - destruct (Qlt_le_dec (1 # 2) (b - a)); [lra|].
    destruct (Qlt_le_dec (b - a) (- (1 # 2))); [lra|reflexivity].
Qed.








End EvaluatorFacts.

(** ** The context retriever *)

Module RetrieverFacts.
Import Py PyFacts Doc Retriever.



Lemma int_or_some k default : k <> 0 -> int_or (Some k) default = k.
Proof. destruct k; simpl; congruence. Qed.

Lemma retrieve_unfold self query category k :
  retrieve self query category k =
  slice_to (int_or k (default_k self))
    (map fst
       (List.filter (fun '(doc, score) => within_distance self score)
          (similarity_search_with_score (vectorstore self) query
             (int_or k (default_k self) * 2) (filter_dict_of category)))).
Proof. reflexivity. Qed.




(** Few candidates above the threshold: fewer than [k] documents, here none. *)
Example retrieve_sparse :
  retrieve (retriever_over [(text_doc "far", 35 # 100)]) "binary search" None (Some 3) = [].
Proof. vm_compute. reflexivity. Qed.

(** C9. [retrieve] with [k = 0] is [retrieve] with [k] omitted: the store is
    asked for twice the default number of candidates and up to the default
    number of documents come back; over a store with six exact matches and
    the default 4, four documents are returned, not zero. *)
Theorem retrieve_k_zero self query category :
  retrieve self query category (Some 0) = retrieve self query category None /\
  retrieve self query category (Some 0) =
    slice_to (default_k self)
      (map fst
         (List.filter (fun '(doc, score) => within_distance self score)
            (similarity_search_with_score (vectorstore self) query
               (default_k self * 2) (filter_dict_of category)))) /\
  length (retrieve (retriever_over six_exact) query category (Some 0)) = 4%nat.
Proof.
  split; [reflexivity|]. split; [reflexivity|].
  rewrite retrieve_unfold. vm_compute. reflexivity.
Qed.

(** ** The sample questions *)

Lemma question_lines_spec lines : forall acc,
  question_lines acc lines = acc ++ omap question_of_line lines.
Proof.
  induction lines as [|line lines IH]; intros acc; simpl.
  - rewrite app_nil_r. reflexivity.
  - unfold question_of_line, question_text.
    destruct (startswith line "Q:" || startswith line "**Q:").
    + destruct (strip _) as [|c q].
      * apply IH.
      * rewrite IH, <- app_assoc. reflexivity.
    + apply IH.
Qed.

Lemma question_docs_spec docs : forall acc,
  question_docs acc docs = acc ++ flat_map questions_of_doc docs.
Proof.
  induction docs as [|doc docs IH]; intros acc; simpl.
  - rewrite app_nil_r. reflexivity.
  - unfold questions_of_doc, is_qa_pair.
    destruct (get_equals (metadata doc) "content_type" "qa_pair").
    + rewrite IH, question_lines_spec, <- app_assoc. reflexivity.
    + apply IH.
Qed.



Lemma prefix_app p s : String.prefix p (p +:+ s) = true.
Proof.
  induction p as [|c p IH].
  - destruct s; reflexivity.
  - change (String c p +:+ s) with (String c (p +:+ s)). cbn [String.prefix].
    destruct (ascii_dec c c); [exact IH|congruence].
Qed.





Example question_text_examples :
  question_text "Q: What is a heap?" = "What is a heap?" /\
  question_text "**Q: What is a heap?" = "What is a heap?" /\
  question_text "**Q: What is a heap?**" = "What is a heap?**" /\
  question_text "**Q:** What is a heap?" = "** What is a heap?".
Proof. repeat split; vm_compute; reflexivity. Qed.




End RetrieverFacts.

(** ** The semantic chunker *)

Module ChunkerFacts.
Import Py PyFacts Doc Chunker.

Lemma enhance_metadata_content document i n :
  page_content (_enhance_metadata document i n) = page_content document.
Proof. reflexivity. Qed.


(** A short document goes through as it is. *)
Lemma chunk_short self document :
  len (page_content document) <= chunk_size self ->
  _chunk_single_document self document = [_enhance_metadata document 0 1].
Proof.
  intros H. unfold _chunk_single_document.
  destruct (Z.leb_spec (len (page_content document)) (chunk_size self));
    [reflexivity|lia].
Qed.





(** The splitting path on the same document with a small [chunk_size]. *)
Example chunk_long_document :
  map page_content (_chunk_single_document (word_chunker 10) padded_document) =
  [""; ""; "Binary"; "search"; "halves"; "the"; "range."; ""].
Proof. vm_compute. reflexivity. Qed.

End ChunkerFacts.

(** ** The document loader *)

Module LoaderFacts.
Import Py PyFacts Doc Loader.

Lemma strip_prefix_app pre rest : strip_prefix pre (pre ++ rest) = Some rest.
Proof.
  induction pre as [|p pre IH]; simpl; [destruct rest; reflexivity|].
  rewrite String.eqb_refl. exact IH.
Qed.

Lemma extract_category_ok self path : exists c, _extract_category self path = Ok c.
Proof.
  unfold _extract_category, relative_to.
  destruct (Bool.eqb _ _); [|eauto].
  destruct (strip_prefix _ _) as [rest|]; [|eauto].
  simpl. destruct rest as [|a [|b rest]]; eauto.
Qed.

Lemma extract_category_under_base self path relative :
  is_absolute path = is_absolute (base_path self) ->
  names path = names (base_path self) ++ relative ->
  _extract_category self path = Ok (category_of relative).
Proof.
  intros Habs Hnames. unfold _extract_category, relative_to.
  rewrite Habs, Bool.eqb_reflx, Hnames, strip_prefix_app. simpl.
  destruct relative as [|a [|b rest]]; reflexivity.
Qed.

(** A path that is not below the base is in the category "general". *)
Lemma extract_category_outside self path :
  strip_prefix (names (base_path self)) (names path) = None ->
  _extract_category self path = Ok "general".
Proof.
  intros H. unfold _extract_category, relative_to. rewrite H.
  destruct (Bool.eqb _ _); reflexivity.
Qed.

Lemma load_text_category env self path docs doc :
  _load_text env self path = Ok docs -> doc ∈ docs ->
  exists c, _extract_category self path = Ok c /\
            metadata doc !! "category" = Some (MStr c).
Proof.
  unfold _load_text.
  destruct (read_text env path) as [content|e]; [|discriminate].
  destruct (_extract_category self path) as [c|e]; [|discriminate].
  cbn [Py.bind]. intros H. injection H as <-.
  intros Hin. apply list_elem_of_singleton in Hin as ->.
  exists c. split; [reflexivity|]. cbn [metadata].
  rewrite !lookup_insert_ne by discriminate. apply lookup_insert_eq.
Qed.

Lemma pdf_loop_category self path c pages : forall i acc docs,
  _extract_category self path = Ok c ->
  Forall (fun d => metadata d !! "category" = Some (MStr c)) acc ->
  pdf_loop self path i acc pages = Ok docs ->
  Forall (fun d => metadata d !! "category" = Some (MStr c)) docs.
Proof.
  induction pages as [|page pages IH]; intros i acc docs Hc Hacc; simpl.
  - intros H. injection H as <-. exact Hacc.
  - destruct page as [text|e]; [|discriminate]. cbn [Py.bind].
    destruct (strip text) as [|ch r].
    + apply IH; assumption.
    + rewrite Hc. cbn [Py.bind]. apply IH; [assumption|].
      apply Forall_app. split; [exact Hacc|].
      apply Forall_singleton. cbn [metadata].
      rewrite !lookup_insert_ne by discriminate. apply lookup_insert_eq.
Qed.

Lemma load_pdf_category env self path docs doc :
  _load_pdf env self path = Ok docs -> doc ∈ docs ->
  exists c, _extract_category self path = Ok c /\
            metadata doc !! "category" = Some (MStr c).
Proof.
  unfold _load_pdf. destruct (extract_category_ok self path) as [c Hc].
  destruct (pypdf_installed env).
  - destruct (pdf_pages env path) as [pages|e]; [|discriminate].
    cbn [Py.bind]. intros H Hin. exists c. split; [exact Hc|].
    pose proof (pdf_loop_category self path c pages 0 [] docs Hc (List.Forall_nil _) H)
      as Hall.
    rewrite Forall_forall in Hall. apply Hall, Hin.
  - intros H. injection H as <-. intros Hin. inversion Hin.
Qed.

(** The goal [Ok [] = Ok docs -> doc ∈ docs -> _]: no document to speak of. *)
Ltac no_document :=
  let H := fresh in
  let Hin := fresh in
  intros H; injection H as <-; intros Hin; inversion Hin.

Lemma load_file_category env self file_path docs doc :
  load_file env self file_path = Ok docs -> doc ∈ docs ->
  exists c, _extract_category self (_resolve_path self file_path) = Ok c /\
            metadata doc !! "category" = Some (MStr c).
Proof.
  unfold load_file. set (path := _resolve_path self file_path).
  destruct (negb (exists_ env path)); [no_document|].
  destruct (bool_decide _); [no_document|].
  destruct (String.eqb (lower (suffix path)) ".pdf").
  - destruct (_load_pdf env self path) as [ds|e] eqn:Hl; simpl; [|no_document].
    intros H. injection H as <-. apply (load_pdf_category _ _ _ _ _ Hl).
  - destruct (_load_text env self path) as [ds|e] eqn:Hl; simpl; [|no_document].
    intros H. injection H as <-. apply (load_text_category _ _ _ _ _ Hl).
Qed.

(** C7. Every document that [load_file] returns for a file below the base
    directory carries as [category] the first segment of the file's path
    relative to the base, and "general" when the file lies directly in the
    base. *)
Theorem load_file_category_first_segment env self file_path docs doc relative :
  load_file env self file_path = Ok docs ->
  doc ∈ docs ->
  is_absolute (_resolve_path self file_path) = is_absolute (base_path self) ->
  names (_resolve_path self file_path) = names (base_path self) ++ relative ->
  (forall first second rest, relative = first :: second :: rest ->
     metadata doc !! "category" = Some (MStr first)) /\
  (forall name, relative = [name] ->
     metadata doc !! "category" = Some (MStr "general")).
Proof.
  intros Hload Hin Habs Hnames.
  destruct (load_file_category _ _ _ _ _ Hload Hin) as (c & Hc & Hm).
  rewrite (extract_category_under_base _ _ _ Habs Hnames) in Hc.
  injection Hc as <-.
  split.
  - intros first second rest ->. exact Hm.
  - intros name ->. exact Hm.
Qed.

Lemma load_file_category_first_segment_witness :
  exists docs doc,
    load_file text_env knowledge arrays_md = Ok docs /\
    docs = [doc] /\
    metadata doc !! "category" = Some (MStr "technical").
Proof.
  eexists. eexists. split; [vm_compute; reflexivity|]. split; [reflexivity|].
  eapply (proj1 (load_file_category_first_segment text_env knowledge arrays_md
                   _ _ ["technical"; "arrays.md"]
                   ltac:(vm_compute; reflexivity)
                   ltac:(apply list_elem_of_here)
                   ltac:(reflexivity) ltac:(reflexivity))).
  reflexivity.
Defined.

Example category_of_arrays_md :
  _extract_category knowledge (_resolve_path knowledge arrays_md) = Ok "technical".
Proof. vm_compute. reflexivity. Qed.

Example category_of_notes_md :
  _extract_category knowledge (_resolve_path knowledge notes_md) = Ok "general".
Proof. vm_compute. reflexivity. Qed.



Example load_file_missing :
  load_file {| exists_ := fun _ => false; read_text := fun _ => Ok "x";
               pypdf_installed := true; pdf_pages := fun _ => Ok [] |}
    knowledge arrays_md = Ok [].
Proof. reflexivity. Qed.

Example load_file_unsupported :
  load_file text_env knowledge {| is_absolute := false; names := ["notes.docx"] |}
  = Ok [].
Proof. vm_compute. reflexivity. Qed.

Example load_file_pdf_parse_error :
  load_file text_env knowledge {| is_absolute := false; names := ["cv.PDF"] |}
  = Ok [].
Proof. vm_compute. reflexivity. Qed.

End LoaderFacts.

(** ** The numbers of the specification in binary64 *)

Module Binary64Facts.
Import Py Binary64.

#[local] Set Warnings "-inexact-float".

Example within_distance_035 : within_distance threshold_07 distance_035 = false.
Proof. vm_compute. reflexivity. Qed.

Example within_distance_02 : within_distance threshold_07 distance_02 = true.
Proof. vm_compute. reflexivity. Qed.

(** For the default threshold the bound [1 - 0.7] is computed without
    rounding, so the comparison on the distance is the comparison of the
    similarity with the threshold. *)
Example default_bound_exact :
  value (1 - threshold_07)%float =
  option_map (fun t => Qred (1 - t)) (value threshold_07).
Proof. vm_compute. reflexivity. Qed.

Example score_trend_5599 : _score_trend [5; 5; 9; 9] = Ok "improving".
Proof. vm_compute. reflexivity. Qed.

Example score_trend_77 : _score_trend [7; 7] = Ok "not_enough_data".
Proof. vm_compute. reflexivity. Qed.

Example summary_sixes :
  _score_trend (replicate 7 6) = Ok "stable" /\
  option_map round1
    (match average_score (replicate 7 6) with Ok a => Some a | Raise _ => None end)
  = Some 6%float.
Proof. split; vm_compute; reflexivity. Qed.

Example round1_examples :
  round1 0.25 = 0.2%float /\ round1 0.75 = 0.8%float /\
  round1 6.35 = 6.3%float /\ round1 (- 0.04) = (- 0)%float.
Proof. repeat split; vm_compute; reflexivity. Qed.

(** Where rounding can be seen: at a tie. The halves of [tie] sum to 11 and
    to 14, so their means are exactly one half apart, and the trend in exact
    arithmetic is "stable"; the two quotients round in opposite directions,
    the means that the code computes are more than one half apart, and its
    trend is "improving". *)
Example score_trend_tie :
  Qred (Evaluator.half_diff (Evaluator.scores (Evaluator.session_with tie))) =
    1 # 2 /\
  Evaluator._score_trend (Evaluator.session_with tie) = Ok "stable" /\
  _score_trend tie = Ok "improving".
Proof. repeat split; vm_compute; reflexivity. Qed.

End Binary64Facts.

(** ** More on the response evaluator *)

Module EvaluatorMore.
Import Py PyFacts Evaluator EvaluatorFacts Feedback.

Lemma last_score_range lines : forall d,
  1 <= d <= 10 -> 1 <= last_score d lines <= 10.
Proof.
  induction lines as [|l lines IH]; intros d Hd; [exact Hd|].
  unfold last_score in *. simpl. apply IH.
  destruct (line_score l) as [n|] eqn:Hl; simpl; [|exact Hd].
  apply (line_score_range _ _ Hl).
Qed.

(** X1. [_parse_evaluation] returns a score for every reply: neither the
    [int] of a token nor the index [1] after the split at a colon raises
    past it. The score keeps the reply as [raw_feedback], and its [overall]
    is between 1 and 10. *)
Theorem parse_evaluation_total evaluation :
  exists r,
    _parse_evaluation evaluation = Ok r /\
    raw_feedback r = evaluation /\
    1 <= overall r <= 10.
Proof.
  destruct (parse_evaluation_ok evaluation) as (r & Hr & Hraw).
  exists r. split; [exact Hr|]. split; [exact Hraw|].
  rewrite (parse_evaluation_overall _ _ Hr). apply last_score_range. lia.
Qed.

Lemma split_once_absent sep s :
  contains (String sep EmptyString) s = false ->
  exists w, split_once sep s = [w].
Proof.
  induction s as [|c s IH]; [simpl; eauto|].
  cbn [contains String.prefix split_once].
  destruct (ascii_dec sep c) as [->|Hne].
  - intros H. apply orb_false_iff in H as [H _]. destruct s; discriminate.
  - rewrite orb_false_l. intros H.
    destruct (Ascii.eqb c sep) eqn:Hc.
    + apply Ascii.eqb_eq in Hc. congruence.
    + destruct (IH H) as [w ->]. eauto.
Qed.

(** The guarded split of the code is the split of [colon_text]. *)
Lemma colon_guard acc line :
  (if contains ":" line then
     let* content := colon_content line in
     Ok (if nonempty content then acc ++ [content] else acc)
   else Ok acc) =
  Ok (acc ++ option_list (colon_text line)).
Proof.
  unfold colon_text, colon_content.
  destruct (contains ":" line) eqn:Hc.
  - destruct (split_once_contains ":" line Hc) as (a & b & ->). simpl.
    destruct (strip b); simpl; [rewrite app_nil_r|]; reflexivity.
  - destruct (split_once_absent ":" line Hc) as (w & ->). simpl.
    rewrite app_nil_r. reflexivity.
Qed.

Lemma extract_strengths_spec acc line :
  extract_strengths acc line = Ok (acc ++ option_list (strength_of line)).
Proof.
  unfold extract_strengths, strength_of.
  destruct (contains "strength" (lower line)); simpl.
  - apply colon_guard.
  - rewrite app_nil_r. reflexivity.
Qed.

Lemma extract_improvements_spec acc line :
  extract_improvements acc line = Ok (acc ++ option_list (improvement_of line)).
Proof.
  unfold extract_improvements, improvement_of.
  destruct (existsb _ improvement_words).
  - apply colon_guard.
  - simpl. rewrite app_nil_r. reflexivity.
Qed.

Lemma parse_lines_feedback lines : forall score strs imps st',
  parse_lines (score, strs, imps) lines = Ok st' ->
  st'.1.2 = strs ++ omap strength_of lines /\
  st'.2 = imps ++ omap improvement_of lines.
Proof.
  induction lines as [|l lines IH]; intros score strs imps st'; simpl.
  - intros H. injection H as <-. simpl. rewrite !app_nil_r. auto.
  - unfold parse_line.
    destruct (extract_score score l) as [score'|e]; [|discriminate].
    rewrite extract_strengths_spec, extract_improvements_spec.
    cbn [Py.bind]. intros H. destruct (IH _ _ _ _ H) as [-> ->].
    rewrite <- !app_assoc.
    destruct (strength_of l), (improvement_of l); auto.
Qed.

Lemma colon_text_shape line text :
  colon_text line = Some text ->
  text <> EmptyString /\ trimmed text /\
  exists before after,
    split_once ":" line = [before; after] /\ text = strip after.
Proof.
  unfold colon_text.
  destruct (split_once ":" line) as [|before [|after [|? ?]]]; try discriminate.
  destruct (strip after) as [|c t] eqn:Hs; [discriminate|].
  intros H. injection H as <-.
  split; [discriminate|]. split; [rewrite <- Hs; apply strip_trimmed|].
  exists before, after. auto.
Qed.

(** X2. The strengths of a reply are, in the order of the lines, the
    trimmed text after the first colon of each line that mentions
    "strength" in any case, has a colon and has text after it; the
    improvements likewise for the lines that mention "improve",
    "suggestion" or "consider". No entry is empty and none starts or ends
    with whitespace; a line can give an entry to both lists. *)
Theorem parse_evaluation_feedback evaluation :
  exists r,
    _parse_evaluation evaluation = Ok r /\
    strengths r = omap strength_of (split_on newline evaluation) /\
    improvements r = omap improvement_of (split_on newline evaluation) /\
    Forall (fun text => text <> EmptyString /\ trimmed text)
      (strengths r ++ improvements r).
Proof.
  destruct (parse_evaluation_ok evaluation) as (r & Hr & _).
  exists r. split; [exact Hr|].
  unfold _parse_evaluation in Hr.
  destruct (parse_lines (7, [], []) (split_on newline evaluation))
    as [[[score strs] imps]|e] eqn:Hp; [|discriminate].
  destruct (parse_lines_feedback _ _ _ _ _ Hp) as [Hs Hi]. simpl in Hs, Hi.
  simpl in Hr. injection Hr as <-. simpl. subst strs imps.
  split; [reflexivity|]. split; [reflexivity|].
  apply Forall_app. split; apply Forall_forall; intros text Hin;
    apply list_elem_of_omap in Hin;
    destruct Hin as (line & _ & Hline).
  - unfold strength_of in Hline.
    destruct (contains "strength" (lower line)); [|discriminate].
    destruct (colon_text_shape _ _ Hline) as (? & ? & _). auto.
  - unfold improvement_of in Hline.
    destruct (existsb _ improvement_words); [|discriminate].
    destruct (colon_text_shape _ _ Hline) as (? & ? & _). auto.
Qed.

Example feedback_line_in_both_lists :
  option_map (fun r => (strengths r, improvements r))
    (match _parse_evaluation "Strength to improve: pacing" with
     | Ok r => Some r
     | Raise _ => None
     end) = Some (["pacing"], ["pacing"]).
Proof. vm_compute. reflexivity. Qed.

End EvaluatorMore.

(** ** Score tokens that the parser reads *)

Module ScoreTokens.
Import Py PyFacts Evaluator EvaluatorFacts Feedback.

Lemma append_nil_l s : EmptyString +:+ s = s.
Proof. reflexivity. Qed.

Lemma append_cons c s t : String c s +:+ t = String c (s +:+ t).
Proof. reflexivity. Qed.

Lemma all_chars_app p s t :
  all_chars p (s +:+ t) = all_chars p s && all_chars p t.
Proof.
  induction s as [|c s IH]; [reflexivity|].
  rewrite append_cons. simpl. rewrite IH. apply andb_assoc.
Qed.

Lemma all_chars_impl (p q : ascii -> bool) s :
  (forall c, p c = true -> q c = true) ->
  all_chars p s = true -> all_chars q s = true.
Proof.
  intros Hpq. induction s as [|c s IH]; [reflexivity|]. simpl.
  intros H. apply andb_true_iff in H as [Hc Hs].
  rewrite (Hpq _ Hc), (IH Hs). reflexivity.
Qed.

Lemma lstrip_by_app p pre s :
  all_chars p pre = true -> lstrip_by p (pre +:+ s) = lstrip_by p s.
Proof.
  induction pre as [|c pre IH]; [reflexivity|].
  rewrite append_cons. simpl. intros H. apply andb_true_iff in H as [Hc Hs].
  rewrite Hc. apply IH, Hs.
Qed.

Lemma rstrip_by_all p post : all_chars p post = true -> rstrip_by p post = EmptyString.
Proof.
  induction post as [|c post IH]; [reflexivity|]. simpl.
  intros H. apply andb_true_iff in H as [Hc Hs].
  rewrite (IH Hs), Hc. reflexivity.
Qed.

Lemma rstrip_by_app p s post :
  all_chars p post = true -> rstrip_by p (s +:+ post) = rstrip_by p s.
Proof.
  intros Hpost. induction s as [|c s IH].
  - rewrite append_nil_l. apply rstrip_by_all, Hpost.
  - rewrite append_cons. simpl. rewrite IH. reflexivity.
Qed.

(** Stripping takes off what was put around a token that does not itself
    start or end with a character to strip. *)
Lemma strip_by_wrapped p pre core post :
  all_chars p pre = true -> all_chars p post = true ->
  (forall c, first_char core = Some c -> p c = false) ->
  (forall c, last_char core = Some c -> p c = false) ->
  strip_by p (pre +:+ core +:+ post) = core.
Proof.
  intros Hpre Hpost Hf Hl. unfold strip_by.
  rewrite lstrip_by_app by exact Hpre.
  destruct core as [|c core].
  - rewrite append_nil_l.
    assert (lstrip_by p post = EmptyString) as ->; [|reflexivity].
    clear Hpre Hf Hl.
    induction post as [|d post IH]; [reflexivity|]. simpl in *.
    apply andb_true_iff in Hpost as [Hd Hs]. rewrite Hd. apply IH, Hs.
  - rewrite append_cons. simpl lstrip_by. rewrite (Hf c eq_refl).
    rewrite <- append_cons, rstrip_by_app by exact Hpost.
    apply rstrip_by_id, Hl.
Qed.

Lemma split_cons_word d e s :
  isspace d = false -> isspace e = false ->
  split (String d (String e s)) =
  match split (String e s) with
  | w :: ws => String d w :: ws
  | [] => [String d EmptyString]
  end.
Proof.
  intros Hd He.
  change (split (String d (String e s))) with
    (if isspace d then split (String e s)
     else if isspace e then String d EmptyString :: split (String e s)
     else match split (String e s) with
          | w :: ws => String d w :: ws
          | [] => [String d EmptyString]
          end).
  rewrite Hd, He. reflexivity.
Qed.

Lemma split_cons_end d c s :
  isspace d = false -> isspace c = true ->
  split (String d (String c s)) = String d EmptyString :: split (String c s).
Proof.
  intros Hd Hc.
  change (split (String d (String c s))) with
    (if isspace d then split (String c s)
     else if isspace c then String d EmptyString :: split (String c s)
     else match split (String c s) with
          | w :: ws => String d w :: ws
          | [] => [String d EmptyString]
          end).
  rewrite Hd, Hc. reflexivity.
Qed.

Lemma split_word w : forall c t,
  w <> EmptyString -> all_chars nonspace w = true -> isspace c = true ->
  split (w +:+ String c t) = w :: split (String c t).
Proof.
  induction w as [|d w IH]; intros c t Hne Hw Hc; [congruence|].
  rewrite append_cons. simpl in Hw. apply andb_true_iff in Hw as [Hd Hw].
  unfold nonspace in Hd. apply negb_true_iff in Hd.
  destruct w as [|e w].
  - rewrite append_nil_l. apply split_cons_end; assumption.
  - pose proof Hw as Hw'. simpl in Hw'. apply andb_true_iff in Hw' as [He _].
    unfold nonspace in He. apply negb_true_iff in He.
    rewrite append_cons, split_cons_word by assumption.
    rewrite <- append_cons, (IH c t) by (try discriminate; assumption).
    reflexivity.
Qed.

Lemma split_single w :
  w <> EmptyString -> all_chars nonspace w = true -> split w = [w].
Proof.
  induction w as [|d w IH]; intros Hne Hw; [congruence|].
  simpl in Hw. apply andb_true_iff in Hw as [Hd Hw].
  unfold nonspace in Hd. apply negb_true_iff in Hd.
  destruct w as [|e w].
  - cbn [split]. rewrite Hd. reflexivity.
  - pose proof Hw as Hw'. simpl in Hw'. apply andb_true_iff in Hw' as [He _].
    unfold nonspace in He. apply negb_true_iff in He.
    rewrite split_cons_word by assumption.
    rewrite IH by (try discriminate; assumption). reflexivity.
Qed.

Lemma split_space_word t :
  split (String " " t) = split t.
Proof. reflexivity. Qed.

Lemma decoration_nonspace c : decoration c = true -> nonspace c = true.
Proof.
  unfold decoration. simpl. rewrite orb_false_r, !orb_true_iff, !Ascii.eqb_eq.
  intros [->|[->|[->| ->]]]; reflexivity.
Qed.

Lemma decoration_not_newline c : decoration c = true -> not_newline c = true.
Proof.
  unfold decoration. simpl. rewrite orb_false_r, !orb_true_iff, !Ascii.eqb_eq.
  intros [->|[->|[->| ->]]]; reflexivity.
Qed.

Lemma split_on_single_line s :
  all_chars not_newline s = true -> split_on newline s = [s].
Proof.
  induction s as [|c s IH]; [reflexivity|]. simpl.
  intros H. apply andb_true_iff in H as [Hc Hs].
  unfold not_newline in Hc. apply negb_true_iff in Hc.
  rewrite Hc, (IH Hs). reflexivity.
Qed.

(** The numerals of the scores: read back by [int], free of whitespace, of
    line feeds and of the stripped characters. *)
Lemma numeral_facts n :
  1 <= n <= 10 ->
  int (numeral n) = Ok n /\
  numeral n <> EmptyString /\
  all_chars nonspace (numeral n) = true /\
  all_chars not_newline (numeral n) = true /\
  (forall c, first_char (numeral n) = Some c -> decoration c = false) /\
  (forall c, last_char (numeral n) = Some c -> decoration c = false).
Proof.
  intros Hn.
  assert (n = 1 \/ n = 2 \/ n = 3 \/ n = 4 \/ n = 5 \/ n = 6 \/ n = 7 \/
          n = 8 \/ n = 9 \/ n = 10) as Hcases by lia.
  repeat (destruct Hcases as [->|Hcases]); try subst n;
    (split; [vm_compute; reflexivity|];
     split; [vm_compute; discriminate|];
     split; [vm_compute; reflexivity|];
     split; [vm_compute; reflexivity|];
     split; intros c Hc; vm_compute in Hc; injection Hc as <-;
       vm_compute; reflexivity).
Qed.

Lemma wrapped_token_facts n pre post :
  1 <= n <= 10 ->
  all_chars decoration pre = true -> all_chars decoration post = true ->
  let token := pre +:+ numeral n +:+ post in
  token <> EmptyString /\
  all_chars nonspace token = true /\
  all_chars not_newline token = true /\
  strip_chars "():/" token = numeral n.
Proof.
  intros Hn Hpre Hpost token. subst token.
  destruct (numeral_facts n Hn) as (_ & Hne & Hsp & Hnl & Hf & Hl).
  split; [|split; [|split]].
  - destruct pre; [|discriminate]. rewrite append_nil_l.
    destruct (numeral n); [congruence|discriminate].
  - rewrite !all_chars_app, Hsp.
    rewrite (all_chars_impl _ _ _ decoration_nonspace Hpre).
    rewrite (all_chars_impl _ _ _ decoration_nonspace Hpost). reflexivity.
  - rewrite !all_chars_app, Hnl.
    rewrite (all_chars_impl _ _ _ decoration_not_newline Hpre).
    rewrite (all_chars_impl _ _ _ decoration_not_newline Hpost). reflexivity.
  - apply (strip_by_wrapped decoration); assumption.
Qed.

Lemma scan_words_wrapped n token rest :
  1 <= n <= 10 -> strip_chars "():/" token = numeral n ->
  scan_words (token :: rest) = Ok (Some n).
Proof.
  intros Hn Hs. simpl. rewrite Hs.
  destruct (numeral_facts n Hn) as (-> & _).
  destruct (Z.leb_spec 1 n); [|lia]. destruct (Z.leb_spec n 10); [|lia].
  reflexivity.
Qed.

Lemma line_score_wrapped n pre post :
  1 <= n <= 10 ->
  all_chars decoration pre = true -> all_chars decoration post = true ->
  line_score ("Score: " +:+ pre +:+ numeral n +:+ post) = Some n.
Proof.
  intros Hn Hpre Hpost.
  destruct (wrapped_token_facts n pre post Hn Hpre Hpost) as (Hne & Hsp & _ & Hs).
  set (token := pre +:+ numeral n +:+ post) in *.
  unfold line_score.
  change (lower ("Score: " +:+ token)) with ("score: " +:+ lower token).
  change (contains "score" ("score: " +:+ lower token)) with true.
  cbn [orb].
  change ("Score: " +:+ token) with ("Score:" +:+ String " " token).
  rewrite split_word by (try discriminate; reflexivity).
  rewrite split_space_word, (split_single token Hne Hsp).
  change (scan_words ["Score:"; token]) with (scan_words [token]).
  rewrite (scan_words_wrapped n token [] Hn Hs). reflexivity.
Qed.

(** X3. A reply that is the line "Score: " followed by one token, the
    numeral of a score from 1 to 10 with any number of the characters
    [( ) : /] before and after it, is scored with that number: "Score: 8",
    "Score: (8)", "Score: 8/" and "Score: 8:" all give 8. *)
Theorem score_line_wrapped n pre post :
  1 <= n <= 10 ->
  all_chars decoration pre = true -> all_chars decoration post = true ->
  exists r,
    _parse_evaluation ("Score: " +:+ pre +:+ numeral n +:+ post) = Ok r /\
    overall r = n.
Proof.
  intros Hn Hpre Hpost.
  destruct (parse_evaluation_ok ("Score: " +:+ pre +:+ numeral n +:+ post))
    as (r & Hr & _).
  exists r. split; [exact Hr|].
  rewrite (parse_evaluation_overall _ _ Hr).
  destruct (wrapped_token_facts n pre post Hn Hpre Hpost) as (_ & _ & Hnl & _).
  rewrite split_on_single_line.
  - unfold last_score. simpl.
    rewrite (line_score_wrapped n pre post Hn Hpre Hpost). reflexivity.
  - change ("Score: " +:+ pre +:+ numeral n +:+ post)
      with ("Score: " +:+ (pre +:+ numeral n +:+ post)).
    rewrite all_chars_app, Hnl. reflexivity.
Qed.

Lemma score_line_wrapped_witness :
  exists r, _parse_evaluation "Score: ((8/:" = Ok r /\ overall r = 8.
Proof.
  apply (score_line_wrapped 8 "((" "/:"); [lia|reflexivity|reflexivity].
Defined.

End ScoreTokens.

(** ** The session map *)

Module SessionFacts.
Import Py PyFacts Evaluator EvaluatorFacts Feedback.

Lemma add_score_fields m s m' :
  add_score m s = Ok m' ->
  session_id m' = session_id m /\ interview_type m' = interview_type m /\
  started_at m' = started_at m /\ ended_at m' = ended_at m /\
  total_questions m' = total_questions m.
Proof.
  unfold add_score.
  destruct (truediv _ _) as [avg|e]; [|discriminate].
  simpl. intros H. injection H as <-. simpl. auto.
Qed.

Lemma add_scores_invariant l : forall m0,
  exists m,
    add_scores m0 l = Ok m /\
    scores m = scores m0 ++ l /\
    questions_answered m = questions_answered m0 + Z.of_nat (length l) /\
    (l <> [] -> (average_score m == mean (scores m))%Q) /\
    session_id m = session_id m0 /\ started_at m = started_at m0 /\
    ended_at m = ended_at m0.
Proof.
  induction l as [|s l IH]; intros m0; simpl.
  - exists m0. rewrite app_nil_r. repeat split; try lia. congruence.
  - destruct (add_score_ok m0 s) as [m1 H1]. rewrite H1. cbn [Py.bind].
    destruct (add_score_average _ _ _ H1) as (Hs1 & Hq1 & Ha1).
    destruct (add_score_fields _ _ _ H1) as (Hid & _ & Hst & Hen & _).
    destruct (IH m1) as (m & Hm & Hs & Hq & Ha & Hid' & Hst' & Hen').
    exists m. split; [exact Hm|].
    split; [rewrite Hs, Hs1, <- app_assoc; reflexivity|].
    split; [rewrite Hq, Hq1; lia|].
    split; [|repeat split; congruence].
    intros _. destruct l as [|s' l].
    + simpl in Hm. injection Hm as <-. exact Ha1.
    + apply Ha. discriminate.
Qed.

(** X4. A session made by [start_session] and given any sequence of scores
    by [add_score] holds exactly these scores in their order, counts as
    many answered questions as it holds scores, has their mean as its
    average, and is still open; [add_score] never raises. *)
Theorem session_after_scores sessions now sid itype l :
  exists m,
    add_scores (start_session sessions now sid itype).1 l = Ok m /\
    scores m = l /\
    questions_answered m = Z.of_nat (length (scores m)) /\
    (l <> [] -> (average_score m == mean l)%Q) /\
    session_id m = sid /\ started_at m = now /\ ended_at m = None.
Proof.
  destruct (add_scores_invariant l (start_session sessions now sid itype).1)
    as (m & Hm & Hs & Hq & Ha & Hid & Hst & Hen).
  simpl in Hs, Hq, Hid, Hst, Hen.
  exists m. split; [exact Hm|]. split; [exact Hs|].
  split; [rewrite Hq, Hs; lia|].
  split; [intros Hl; rewrite <- Hs; apply Ha, Hl|]. auto.
Qed.

(** X5. After [start_session] the map holds under the session id a fresh
    session, with no score, no answered question and no end, whatever the
    map held under that id before; every other id is as it was. *)
Theorem start_session_fresh (sessions : gmap string SessionMetrics)
    now sid itype :
  let (m, sessions') := start_session sessions now sid itype in
  get_session sessions' sid = Some m /\
  scores m = [] /\ questions_answered m = 0 /\ ended_at m = None /\
  started_at m = now /\ interview_type m = itype /\
  forall other, other <> sid ->
    get_session sessions' other = get_session sessions other.
Proof.
  unfold start_session, get_session. cbn [scores questions_answered ended_at
    started_at interview_type].
  split; [apply lookup_insert_eq|]. repeat split.
  intros other Hne. apply lookup_insert_ne. congruence.
Qed.

(** X6. [end_session] on an id that the map does not hold returns nothing
    and leaves the map as it is. On an id that it holds, it stamps the end
    and changes nothing else of the session, nor any other session; a
    second call stamps the session again, and the later time stays. *)
Theorem end_session_stamps (sessions : gmap string SessionMetrics) t1 t2 sid :
  (sessions !! sid = None -> end_session sessions t1 sid = (None, sessions)) /\
  (forall m, sessions !! sid = Some m ->
     exists m1 m2 sessions1 sessions2,
       end_session sessions t1 sid = (Some m1, sessions1) /\
       end_session sessions1 t2 sid = (Some m2, sessions2) /\
       sessions1 !! sid = Some m1 /\ sessions2 !! sid = Some m2 /\
       ended_at m1 = Some t1 /\ ended_at m2 = Some t2 /\
       scores m1 = scores m /\ scores m2 = scores m /\
       started_at m2 = started_at m /\
       average_score m2 = average_score m /\
       questions_answered m2 = questions_answered m /\
       forall other, other <> sid -> sessions2 !! other = sessions !! other).
Proof.
  split.
  - intros H. unfold end_session. rewrite H. reflexivity.
  - intros m Hm. unfold end_session at 1. rewrite Hm.
    eexists. eexists. eexists. eexists.
    split; [reflexivity|].
    unfold end_session. rewrite lookup_insert_eq.
    split; [reflexivity|].
    cbn [ended_at scores started_at average_score questions_answered].
    repeat split; try reflexivity; try apply lookup_insert_eq.
    intros other Hne. rewrite !lookup_insert_ne by congruence. reflexivity.
Qed.

Lemma end_session_stamps_witness :
  exists m1 m2 sessions1 sessions2,
    end_session {[ "s1" := open_session ]} 3 "s1" = (Some m1, sessions1) /\
    end_session sessions1 9 "s1" = (Some m2, sessions2) /\
    ended_at m1 = Some 3 /\ ended_at m2 = Some 9.
Proof.
  destruct (proj2 (end_session_stamps {[ "s1" := open_session ]} 3 9 "s1")
              open_session (lookup_singleton_eq _ _))
    as (m1 & m2 & s1 & s2 & H1 & H2 & _ & _ & He1 & He2 & _).
  exists m1, m2, s1, s2. auto.
Defined.

(** X7. [evaluate_response] on a session that the map holds, ended or not,
    returns the parsed score and stores it: the session has the score as
    its last one and one more answered question, its start and its end
    are as before, and no other session changes. Nothing stops a score from
    reaching a session that was ended. *)
Theorem evaluate_response_records client
    (sessions : gmap string SessionMetrics) sid q r m :
  sessions !! sid = Some m ->
  exists score m' sessions',
    evaluate_response client sessions sid q r = Ok (score, sessions') /\
    (exists evaluation,
       _generate_evaluation client q r = Ok evaluation /\
       _parse_evaluation evaluation = Ok score) /\
    sessions' !! sid = Some m' /\
    scores m' = scores m ++ [score] /\
    questions_answered m' = questions_answered m + 1 /\
    started_at m' = started_at m /\ ended_at m' = ended_at m /\
    forall other, other <> sid -> sessions' !! other = sessions !! other.
Proof.
  intros Hm. unfold evaluate_response.
  destruct (generate_evaluation_ok client q r) as [e He]. rewrite He.
  cbn [Py.bind].
  destruct (parse_evaluation_ok e) as [score [Hs _]]. rewrite Hs.
  cbn [Py.bind]. rewrite Hm.
  destruct (add_score_ok m score) as [m' Hm']. rewrite Hm'. cbn [Py.bind].
  destruct (add_score_average _ _ _ Hm') as (Hsc & Hq & _).
  destruct (add_score_fields _ _ _ Hm') as (_ & _ & Hst & Hen & _).
  exists score, m', (<[sid := m']> sessions).
  split; [reflexivity|]. split; [eauto|].
  split; [apply lookup_insert_eq|].
  repeat split; try assumption.
  intros other Hne. apply lookup_insert_ne. congruence.
Qed.

Lemma evaluate_response_records_witness :
  exists score m' sessions',
    evaluate_response (replying_client "Score: 9")
      {[ "s1" := ended_session ]} "s1" "Q" "A" = Ok (score, sessions') /\
    sessions' !! "s1" = Some m' /\
    scores m' = scores ended_session ++ [score] /\
    ended_at m' = Some 5.
Proof.
  destruct (evaluate_response_records (replying_client "Score: 9")
              {[ "s1" := ended_session ]} "s1" "Q" "A" ended_session
              (lookup_singleton_eq _ _))
    as (score & m' & s' & He & _ & Hl & Hs & _ & _ & Hen & _).
  exists score, m', s'. auto.
Defined.

End SessionFacts.

(** ** More on the context retriever *)

Module RetrieverMore.
Import Py PyFacts Doc Retriever RetrieverFacts Context.

(** On candidates in the order of their distances, the ones within the
    distance are the first ones. *)
Lemma filter_sorted_prefix self (candidates : list (Document * Q)) :
  StronglySorted (fun a b => (a.2 <= b.2)%Q) candidates ->
  List.filter (fun '(doc, score) => within_distance self score) candidates =
  take (length (List.filter (fun '(doc, score) => within_distance self score)
                  candidates)) candidates.
Proof.
  induction 1 as [|[doc d] l Hs IH Hall]; [reflexivity|]. simpl.
  destruct (within_distance self d) eqn:Hd; simpl.
  - rewrite <- IH. reflexivity.
  - assert (List.filter (fun '(doc, score) => within_distance self score) l = [])
      as ->; [|reflexivity].
    clear IH Hs. induction Hall as [|[doc' d'] l Hle _ IH]; [reflexivity|].
    simpl. simpl in Hle.
    assert (within_distance self d' = false) as ->; [|exact IH].
    apply not_true_is_false. intros Hd'. apply not_true_iff_false in Hd.
    apply Hd. unfold within_distance in *. rewrite Qle_bool_iff in *.
    eapply Qle_trans; eassumption.
Qed.

(** X8. When the store answers in the order of increasing distance, as a
    vector store does, [retrieve] returns a beginning of the store's answer:
    its first documents, as many as are within the distance, and at most
    the number asked for. *)
Theorem retrieve_sorted_prefix self query category k :
  let num := int_or k (default_k self) in
  let candidates :=
    similarity_search_with_score (vectorstore self) query (num * 2)
      (filter_dict_of category) in
  let within :=
    length (List.filter (fun '(doc, score) => within_distance self score)
              candidates) in
  0 <= num ->
  StronglySorted (fun a b => (a.2 <= b.2)%Q) candidates ->
  retrieve self query category k =
  take (min (Z.to_nat num) within) (map fst candidates).
Proof.
  intros num candidates within Hnum Hsorted.
  rewrite retrieve_unfold. fold num. fold candidates.
  rewrite slice_to_nonneg by exact Hnum.
  rewrite (filter_sorted_prefix self candidates Hsorted). fold within.
  rewrite <- firstn_map. apply take_take.
Qed.

Lemma retrieve_sorted_prefix_witness :
  retrieve (retriever_over near_and_far) "binary search" None (Some 2) =
  take 1 (map fst near_and_far).
Proof.
  rewrite (retrieve_sorted_prefix (retriever_over near_and_far) "binary search"
             None (Some 2)).
  - reflexivity.
  - simpl. lia.
  - vm_compute. repeat constructor; discriminate.
Defined.

Lemma slice_to_subseteq {A} (n : Z) (xs : list A) x :
  x ∈ slice_to n xs -> x ∈ xs.
Proof. unfold slice_to. destruct (0 <=? n); apply subseteq_take. Qed.

(** X9. Whatever the count, every string that [get_sample_questions]
    returns is the question text of a line that begins with "Q:" or "**Q:"
    in a retrieved document of content type "qa_pair"; it is not empty and
    neither starts nor ends with whitespace. *)
Theorem sample_questions_wellformed self interview_type topic count question :
  question ∈ get_sample_questions self interview_type topic count ->
  question <> EmptyString /\ trimmed question /\
  exists doc line,
    doc ∈ retrieve self
            (str_or topic (interview_type +:+ " interview questions"))
            (Some interview_type) (Some count) /\
    is_qa_pair doc = true /\
    line ∈ split_on newline (page_content doc) /\
    (startswith line "Q:" || startswith line "**Q:") = true /\
    question = question_text line.
Proof.
  unfold get_sample_questions. intros Hin. apply slice_to_subseteq in Hin.
  rewrite question_docs_spec in Hin. simpl app in Hin.
  apply list_elem_of_In, in_flat_map in Hin. destruct Hin as (doc & Hdoc & Hq).
  unfold questions_of_doc in Hq.
  destruct (is_qa_pair doc) eqn:Hqa; [|inversion Hq].
  apply list_elem_of_In, list_elem_of_omap in Hq. destruct Hq as (line & Hline & Hl).
  unfold question_of_line in Hl.
  destruct (startswith line "Q:" || startswith line "**Q:") eqn:Hm; [|discriminate].
  destruct (question_text line) as [|c t] eqn:Ht; [discriminate|].
  injection Hl as <-.
  split; [discriminate|].
  split; [rewrite <- Ht; apply strip_trimmed|].
  exists doc, line. split; [apply list_elem_of_In, Hdoc|]. auto.
Qed.

Lemma sample_questions_wellformed_witness :
  "Why use one?" <> EmptyString /\ trimmed "Why use one?" /\
  exists doc line,
    doc ∈ retrieve (retriever_over mixed_documents)
            (str_or None ("technical" +:+ " interview questions"))
            (Some "technical") (Some 2) /\
    is_qa_pair doc = true /\
    line ∈ split_on newline (page_content doc) /\
    (startswith line "Q:" || startswith line "**Q:") = true /\
    "Why use one?" = question_text line.
Proof.
  apply (sample_questions_wellformed (retriever_over mixed_documents)
           "technical" None 2 "Why use one?").
  vm_compute. apply list_elem_of_In. right. left. reflexivity.
Defined.

End RetrieverMore.

(** ** The context of a prompt *)

Module ContextFacts.
Import Py PyFacts Doc Retriever RetrieverFacts Context ScoreTokens.

Lemma append_assoc a b c : (a +:+ b) +:+ c = a +:+ (b +:+ c).
Proof.
  induction a as [|x a IH]; [reflexivity|].
  rewrite !append_cons, IH. reflexivity.
Qed.

Lemma contains_prefix n s : String.prefix n s = true -> contains n s = true.
Proof. intros H. destruct s; cbn [contains]; rewrite H; reflexivity. Qed.

Lemma contains_middle n a b : contains n (a +:+ n +:+ b) = true.
Proof.
  induction a as [|c a IH].
  - rewrite append_nil_l. apply contains_prefix, prefix_app.
  - rewrite append_cons. cbn [contains]. rewrite IH. apply orb_true_r.
Qed.

(** A part of a join lies in it, between what is joined before and after. *)
Lemma join_lookup sep parts : forall i part,
  parts !! i = Some part ->
  exists a b, join sep parts = a +:+ part +:+ b.
Proof.
  induction parts as [|p parts IH]; intros i part Hi; [discriminate|].
  destruct i as [|i]; simpl in Hi.
  - injection Hi as ->. exists EmptyString.
    destruct parts as [|p' parts].
    + exists EmptyString. simpl. rewrite append_nil_l.
      induction part as [|c part IHp]; [reflexivity|].
      rewrite append_cons, <- IHp. reflexivity.
    + exists (sep +:+ join sep (p' :: parts)). reflexivity.
  - destruct (IH _ _ Hi) as (a & b & Hj).
    destruct parts as [|p' parts]; [discriminate|].
    exists (p +:+ sep +:+ a), b.
    change (join sep (p :: p' :: parts))
      with (p +:+ sep +:+ join sep (p' :: parts)).
    rewrite Hj, !append_assoc. reflexivity.
Qed.

Lemma context_part_nonempty i doc : context_part i doc <> EmptyString.
Proof. unfold context_part. discriminate. Qed.

Lemma join_nonempty sep p parts :
  p <> EmptyString -> join sep (p :: parts) <> EmptyString.
Proof.
  intros Hp. destruct p as [|c p]; [congruence|].
  destruct parts; simpl; [discriminate|].
  rewrite append_cons. discriminate.
Qed.

Lemma format_context_empty documents :
  _format_context documents = EmptyString <-> documents = [].
Proof.
  split; [|intros ->; reflexivity].
  destruct documents as [|doc documents]; [reflexivity|].
  unfold _format_context. cbn [imap]. intros H. exfalso.
  revert H. apply join_nonempty, context_part_nonempty.
Qed.

(** X10. [_format_context] gives the empty string for no document and for
    no other list. In the context of a list, every document has its part:
    the header with its number, counted from 1, and its category
    ("general" without one), then its content trimmed; the content itself
    is found in the context. *)
Theorem format_context_parts documents :
  (_format_context documents = EmptyString <-> documents = []) /\
  forall i doc, documents !! i = Some doc ->
    contains
      ("[Context " +:+ str_of_int (Z.of_nat i + 1) +:+ " - " +:+
       render (default (MStr "general") (metadata doc !! "category")) +:+ "]" +:+
       nl +:+ strip (page_content doc) +:+ nl)
      (_format_context documents) = true /\
    contains (strip (page_content doc)) (_format_context documents) = true.
Proof.
  split; [apply format_context_empty|].
  intros i doc Hi.
  assert (imap (fun i doc => context_part (Z.of_nat i + 1) doc) documents !! i
          = Some (context_part (Z.of_nat i + 1) doc)) as Hpart
    by (rewrite list_lookup_imap, Hi; reflexivity).
  destruct (join_lookup nl _ _ _ Hpart) as (a & b & Hj).
  assert (_format_context documents =
          a +:+ context_part (Z.of_nat i + 1) doc +:+ b) as ->.
  { destruct documents; [discriminate|]. exact Hj. }
  split; [apply contains_middle|].
  unfold context_part.
  set (header := "[Context " +:+ str_of_int (Z.of_nat i + 1) +:+ " - " +:+
                 render (default (MStr "general") (metadata doc !! "category"))
                 +:+ "]" +:+ nl).
  replace (a +:+ ("[Context " +:+ str_of_int (Z.of_nat i + 1) +:+ " - " +:+
                  render (default (MStr "general") (metadata doc !! "category"))
                  +:+ "]" +:+ nl +:+ strip (page_content doc) +:+ nl) +:+ b)
    with ((a +:+ header) +:+ strip (page_content doc) +:+ (nl +:+ b)).
  - apply contains_middle.
  - subst header. rewrite !append_assoc. reflexivity.
Qed.

Lemma format_context_parts_witness :
  contains "Arrays are contiguous."
    (_format_context (map fst two_documents)) = true.
Proof.
  apply (proj2 (proj2 (format_context_parts (map fst two_documents)) 0%nat _ eq_refl)).
Defined.

Lemma filter_nil_iff {A} (f : A -> bool) l :
  List.filter f l = [] <-> Forall (fun x => f x = false) l.
Proof.
  induction l as [|x l IH]; simpl.
  - split; [constructor|reflexivity].
  - destruct (f x) eqn:Hx.
    + split; [discriminate|]. intros H. inversion H. congruence.
    + rewrite IH. split; [intros H; constructor; assumption|].
      intros H. inversion H. assumption.
Qed.

Lemma retrieve_nil_iff self query category n :
  0 < n ->
  retrieve self query category (Some n) = [] <->
  Forall (fun c => within_distance self c.2 = false)
    (similarity_search_with_score (vectorstore self) query (n * 2)
       (filter_dict_of category)).
Proof.
  intros Hn. rewrite retrieve_unfold, int_or_some by lia.
  rewrite slice_to_nonneg by lia.
  destruct (Z.to_nat n) as [|m] eqn:Hm; [lia|].
  set (candidates := similarity_search_with_score _ _ _ _).
  rewrite <- (filter_nil_iff (fun c => within_distance self c.2)).
  assert (List.filter (fun '(doc, score) => within_distance self score) candidates
          = List.filter (fun c => within_distance self c.2) candidates) as ->.
  { apply List.filter_ext. intros [doc d]. reflexivity. }
  destruct (List.filter _ candidates); simpl; split; congruence.
Qed.

(** X11. The context for a question is empty exactly when none of the six
    candidates that the store gives for the question, in the category of
    the interview type, is within the distance; the context for an
    evaluation is empty exactly when none of the eight candidates for the
    question and the answer, joined by a space and in no category, is. *)
Theorem context_empty_iff self question answer interview_type :
  (retrieve_for_question self question interview_type = EmptyString <->
   Forall (fun c => within_distance self c.2 = false)
     (similarity_search_with_score (vectorstore self) question 6
        (filter_dict_of (Some interview_type)))) /\
  (retrieve_for_evaluation self question answer = EmptyString <->
   Forall (fun c => within_distance self c.2 = false)
     (similarity_search_with_score (vectorstore self)
        (question +:+ " " +:+ answer) 8 None)).
Proof.
  unfold retrieve_for_question, retrieve_for_evaluation.
  rewrite !format_context_empty. split.
  - apply (retrieve_nil_iff self question (Some interview_type) 3). lia.
  - apply (retrieve_nil_iff self (question +:+ " " +:+ answer) None 4). lia.
Qed.

End ContextFacts.

(** ** More on the semantic chunker *)

Module ChunkerMore.
Import Py PyFacts Doc Chunker ChunkerFacts ChunkKeys Retriever.

(** Look a key up through the six insertions of [_enhance_metadata]. *)
Ltac through_inserts :=
  repeat first
    [ rewrite lookup_insert_eq
    | rewrite lookup_insert_ne by (discriminate || congruence) ].

Lemma enhance_metadata_other document i n k :
  k ∉ chunk_keys ->
  metadata (_enhance_metadata document i n) !! k = metadata document !! k.
Proof.
  unfold chunk_keys. rewrite !not_elem_of_cons.
  intros (H1 & H2 & H3 & H4 & H5 & H6 & _).
  unfold _enhance_metadata. cbn [metadata]. through_inserts. reflexivity.
Qed.

Lemma enhance_metadata_keys document i n :
  let chunk := _enhance_metadata document i n in
  metadata chunk !! "chunk_index" = Some (MInt i) /\
  metadata chunk !! "total_chunks" = Some (MInt n) /\
  metadata chunk !! "chunk_size" = Some (MInt (len (page_content chunk))) /\
  metadata chunk !! "is_first_chunk" = Some (MBool (i =? 0)) /\
  metadata chunk !! "is_last_chunk" = Some (MBool (i =? n - 1)) /\
  metadata chunk !! "content_type" =
    Some (MStr (content_type_of (page_content chunk))).
Proof.
  unfold _enhance_metadata. cbn [metadata page_content].
  repeat split; through_inserts; reflexivity.
Qed.

Lemma content_type_values content :
  content_type_of content = "qa_pair" \/
  content_type_of content = "heading" \/
  content_type_of content = "text".
Proof.
  unfold content_type_of.
  destruct (_ || _); [auto|]. destruct (startswith content "#"); auto.
Qed.

(** What one chunk of a document carries, on either path. *)
Lemma chunk_single_document_lookup self document i chunk :
  _chunk_single_document self document !! i = Some chunk ->
  let total := length (_chunk_single_document self document) in
  (i < total)%nat /\
  chunk = _enhance_metadata
            {| page_content := page_content chunk; metadata := metadata document |}
            (Z.of_nat i) (Z.of_nat total).
Proof.
  intros Hi total. split; [apply lookup_lt_Some in Hi; exact Hi|].
  subst total. revert Hi. unfold _chunk_single_document.
  destruct (len (page_content document) <=? chunk_size self).
  - destruct i as [|i]; [|discriminate]. simpl. intros H. injection H as <-.
    destruct document. reflexivity.
  - rewrite length_imap, list_lookup_imap.
    destruct (_splitter_split_text self (page_content document) !! i)
      as [piece|]; [|discriminate].
    simpl. intros H. injection H as <-. reflexivity.
Qed.

(** X12. Every chunk that [_chunk_single_document] gives carries its
    position: [chunk_index] is its place among the chunks of the document,
    below [total_chunks], which is their number; [chunk_size] is the length
    of its text; [is_first_chunk] and [is_last_chunk] mark the first and
    the last place; [content_type] is "qa_pair", "heading" or "text" by
    the start of its text. Every other key of the document's metadata, such
    as its category and its source, reaches the chunk unchanged. *)
Theorem chunk_metadata self document i chunk :
  _chunk_single_document self document !! i = Some chunk ->
  let total := length (_chunk_single_document self document) in
  (i < total)%nat /\
  metadata chunk !! "chunk_index" = Some (MInt (Z.of_nat i)) /\
  metadata chunk !! "total_chunks" = Some (MInt (Z.of_nat total)) /\
  metadata chunk !! "chunk_size" = Some (MInt (len (page_content chunk))) /\
  metadata chunk !! "is_first_chunk" = Some (MBool (bool_decide (i = 0%nat))) /\
  metadata chunk !! "is_last_chunk" =
    Some (MBool (bool_decide (S i = total))) /\
  metadata chunk !! "content_type" =
    Some (MStr (content_type_of (page_content chunk))) /\
  (forall k, k ∉ chunk_keys -> metadata chunk !! k = metadata document !! k).
Proof.
  intros Hi total.
  destruct (chunk_single_document_lookup _ _ _ _ Hi) as [Hlt Hc].
  fold total in Hlt, Hc.
  set (bare := {| page_content := page_content chunk;
                  metadata := metadata document |}) in Hc.
  pose proof (enhance_metadata_keys bare (Z.of_nat i) (Z.of_nat total))
    as (H1 & H2 & H3 & H4 & H5 & H6).
  rewrite <- Hc in H1, H2, H3, H4, H5, H6.
  split; [exact Hlt|]. split; [exact H1|]. split; [exact H2|].
  split; [exact H3|].
  split.
  { rewrite H4. do 2 f_equal. destruct (Z.eqb_spec (Z.of_nat i) 0);
      [rewrite bool_decide_eq_true_2 by lia|rewrite bool_decide_eq_false_2 by lia];
      reflexivity. }
  split.
  { rewrite H5. do 2 f_equal.
    destruct (Z.eqb_spec (Z.of_nat i) (Z.of_nat total - 1));
      [rewrite bool_decide_eq_true_2 by lia|rewrite bool_decide_eq_false_2 by lia];
      reflexivity. }
  split; [exact H6|].
  intros k Hk. rewrite Hc. apply (enhance_metadata_other bare), Hk.
Qed.

Lemma chunk_metadata_witness :
  exists chunk,
    _chunk_single_document (word_chunker 10) padded_document !! 2%nat = Some chunk /\
    metadata chunk !! "chunk_index" = Some (MInt 2) /\
    metadata chunk !! "category" = Some (MStr "technical").
Proof.
  eexists. split; [vm_compute; reflexivity|].
  pose proof (chunk_metadata (word_chunker 10) padded_document 2 _
                ltac:(vm_compute; reflexivity)) as (_ & H1 & _ & _ & _ & _ & _ & Hk).
  split; [exact H1|].
  rewrite Hk; [reflexivity|]. unfold chunk_keys.
  rewrite !not_elem_of_cons. repeat split; try discriminate. apply not_elem_of_nil.
Defined.

Lemma chunk_documents_fold self documents : forall acc,
  foldl (fun chunked doc => chunked ++ _chunk_single_document self doc)
    acc documents =
  acc ++ flat_map (_chunk_single_document self) documents.
Proof.
  induction documents as [|d documents IH]; intros acc; simpl.
  - rewrite app_nil_r. reflexivity.
  - rewrite IH, app_assoc. reflexivity.
Qed.

Lemma chunk_documents_flat_map self documents :
  chunk_documents self documents =
  flat_map (_chunk_single_document self) documents.
Proof. unfold chunk_documents. apply chunk_documents_fold. Qed.

(** X13. [chunk_documents] gives the chunks of its documents one document
    after the other: the chunks of two lists are the chunks of the first
    followed by the chunks of the second. Every chunk comes from one of the documents and has that
    document's metadata under every key that chunking does not set, so the
    category by which retrieval filters is the one of the file. *)
Theorem chunk_documents_sources self documents more :
  chunk_documents self (documents ++ more) =
    chunk_documents self documents ++ chunk_documents self more /\
  forall chunk, chunk ∈ chunk_documents self documents ->
    exists document,
      document ∈ documents /\
      chunk ∈ _chunk_single_document self document /\
      forall k, k ∉ chunk_keys -> metadata chunk !! k = metadata document !! k.
Proof.
  rewrite !chunk_documents_flat_map. split; [apply flat_map_app|].
  intros chunk Hin. apply list_elem_of_In, in_flat_map in Hin.
  destruct Hin as (document & Hd & Hc).
  exists document. split; [apply list_elem_of_In, Hd|].
  apply list_elem_of_In in Hc. split; [exact Hc|].
  apply list_elem_of_lookup in Hc as [i Hi].
  destruct (chunk_single_document_lookup self document i chunk Hi) as [_ Hshape].
  intros k Hk. rewrite Hshape, enhance_metadata_other by exact Hk. reflexivity.
Qed.

(** Enhancing a document a second time for the same place changes nothing. *)
Lemma enhance_metadata_idempotent document i n :
  _enhance_metadata (_enhance_metadata document i n) i n =
  _enhance_metadata document i n.
Proof.
  unfold _enhance_metadata. cbn [page_content metadata]. f_equal.
  apply map_eq. intros k.
  destruct (decide (k ∈ chunk_keys)) as [Hin|Hout].
  - unfold chunk_keys in Hin. rewrite !elem_of_cons in Hin.
    destruct Hin as [->|[->|[->|[->|[->|[->|Hin]]]]]];
      [..|inversion Hin]; through_inserts; reflexivity.
  - unfold chunk_keys in Hout. rewrite !not_elem_of_cons in Hout.
    destruct Hout as (H1 & H2 & H3 & H4 & H5 & H6 & _).
    through_inserts. reflexivity.
Qed.

(** X14. On documents that are all short for the chunker, chunking is
    idempotent: each document gives one chunk with its own text, and
    chunking the chunks again gives the same chunks. *)
Theorem chunk_documents_idempotent self documents :
  Forall (short self) documents ->
  map page_content (chunk_documents self documents) = map page_content documents /\
  chunk_documents self (chunk_documents self documents) =
  chunk_documents self documents.
Proof.
  intros Hshort. rewrite !chunk_documents_flat_map.
  induction Hshort as [|d documents Hd _ [IHc IHi]]; [split; reflexivity|].
  unfold short in Hd. simpl. rewrite (chunk_short _ _ Hd). simpl.
  split; [rewrite IHc; reflexivity|].
  rewrite chunk_short by exact Hd. simpl.
  rewrite enhance_metadata_idempotent, IHi. reflexivity.
Qed.

Lemma chunk_documents_idempotent_witness :
  map page_content (chunk_documents (word_chunker 512) [padded_document]) =
    map page_content [padded_document] /\
  chunk_documents (word_chunker 512)
    (chunk_documents (word_chunker 512) [padded_document]) =
  chunk_documents (word_chunker 512) [padded_document].
Proof.
  apply chunk_documents_idempotent.
  constructor; [|constructor]. unfold short. vm_compute. discriminate.
Defined.

Lemma space_is_no_marker c s :
  isspace c = true -> content_type_of (String c s) = "text".
Proof.
  intros Hc. unfold content_type_of, startswith. cbn [String.prefix].
  destruct (ascii_dec "Q" c) as [<-|_]; [vm_compute in Hc; discriminate|].
  destruct (ascii_dec "*" c) as [<-|_]; [vm_compute in Hc; discriminate|].
  destruct (ascii_dec "#" c) as [<-|_]; [vm_compute in Hc; discriminate|].
  reflexivity.
Qed.

(** X15. A short document whose text begins with whitespace, be it a blank
    or an empty first line, is classed as "text" whatever follows, since
    the short path does not trim; so [get_sample_questions] takes no
    question from it, even when its lines begin with "Q:". *)
Theorem short_document_blank_start self document c rest chunk :
  page_content document = String c rest ->
  isspace c = true ->
  short self document ->
  chunk ∈ _chunk_single_document self document ->
  metadata chunk !! "content_type" = Some (MStr "text") /\
  questions_of_doc chunk = [].
Proof.
  intros Hcontent Hc Hshort Hin. unfold short in Hshort.
  rewrite (chunk_short _ _ Hshort) in Hin.
  apply list_elem_of_singleton in Hin as ->.
  pose proof (enhance_metadata_keys document 0 1) as (_ & _ & _ & _ & _ & Ht).
  rewrite enhance_metadata_content, Hcontent, (space_is_no_marker _ _ Hc) in Ht.
  split; [exact Ht|].
  unfold questions_of_doc, is_qa_pair, get_equals. rewrite Ht. reflexivity.
Qed.

Lemma short_document_blank_start_witness :
  Forall (fun chunk =>
            metadata chunk !! "content_type" = Some (MStr "text") /\
            questions_of_doc chunk = [])
    (_chunk_single_document (word_chunker 512) blank_first_document).
Proof.
  apply Forall_forall. intros chunk Hin.
  apply (short_document_blank_start (word_chunker 512) blank_first_document
           newline ("Q: What is a heap?" +:+ nl +:+ "A: A tree.") chunk).
  - reflexivity.
  - reflexivity.
  - unfold short. vm_compute. discriminate.
  - exact Hin.
Defined.

End ChunkerMore.

(** ** More on the document loader *)

Module LoaderMore.
Import Py PyFacts Doc Loader LoaderFacts Directory Loaded.

Lemma load_file_unfold env self file_path :
  let path := _resolve_path self file_path in
  exists_ env path = true ->
  lower (suffix path) ∈ SUPPORTED_EXTENSIONS ->
  load_file env self file_path =
  try_except
    (if String.eqb (lower (suffix path)) ".pdf" then _load_pdf env self path
     else _load_text env self path)
    (fun _ => Ok []).
Proof.
  intros path Hex Hext. unfold load_file. fold path. rewrite Hex.
  cbn [negb]. rewrite bool_decide_eq_false_2; [reflexivity|].
  intros Hn. exact (Hn Hext).
Qed.

Lemma load_file_returns env self file_path :
  exists docs, load_file env self file_path = Ok docs.
Proof.
  unfold load_file. destruct (negb _); [eauto|].
  destruct (bool_decide _); [eauto|].
  destruct (if String.eqb _ _ then _ else _); simpl; eauto.
Qed.

(** X16. A markdown or text file that exists and can be read gives exactly
    one document: its content is the text of the file, untrimmed, and its
    metadata has the four keys "source", "filename", "category" and
    "file_type", with the resolved path, its last component, the category
    of the path and the lower-cased suffix. *)
Theorem load_file_text env self file_path content :
  let path := _resolve_path self file_path in
  exists_ env path = true ->
  lower (suffix path) ∈ SUPPORTED_EXTENSIONS ->
  lower (suffix path) <> ".pdf" ->
  read_text env path = Ok content ->
  exists category,
    _extract_category self path = Ok category /\
    load_file env self file_path =
      Ok [{| page_content := content;
             metadata := {[ "source" := MStr (path_str path);
                            "filename" := MStr (name path);
                            "category" := MStr category;
                            "file_type" := MStr (lower (suffix path)) ]} |}].
Proof.
  intros path Hex Hext Hpdf Hread.
  destruct (extract_category_ok self path) as [category Hc].
  exists category. split; [exact Hc|].
  rewrite (load_file_unfold env self file_path Hex Hext). fold path.
  apply String.eqb_neq in Hpdf. rewrite Hpdf.
  unfold _load_text. rewrite Hread, Hc. reflexivity.
Qed.

Lemma load_file_text_witness :
  exists category,
    _extract_category knowledge (_resolve_path knowledge arrays_md) = Ok category /\
    load_file text_env knowledge arrays_md =
      Ok [{| page_content := "# Arrays";
             metadata :=
               {[ "source" := MStr (path_str (_resolve_path knowledge arrays_md));
                  "filename" := MStr (name (_resolve_path knowledge arrays_md));
                  "category" := MStr category;
                  "file_type" :=
                    MStr (lower (suffix (_resolve_path knowledge arrays_md))) ]} |}].
Proof.
  apply (load_file_text text_env knowledge arrays_md "# Arrays").
  - reflexivity.
  - vm_compute. set_unfold. auto.
  - vm_compute. discriminate.
  - reflexivity.
Defined.

Lemma page_documents_cons path category first text texts :
  page_documents path category first (text :: texts) =
  match page_document path category first text with
  | Some d => d :: page_documents path category (S first) texts
  | None => page_documents path category (S first) texts
  end.
Proof.
  unfold page_documents. cbn [imap omap].
  rewrite Nat.add_0_r.
  rewrite (imap_ext _ (fun j => page_document path category (S first + j)));
    [|intros j x _; cbn [compose]; f_equal; lia].
  destruct (page_document path category first text); reflexivity.
Qed.

(** The loop over pages that all give a text. *)
Lemma pdf_loop_texts self path category texts : forall i documents,
  _extract_category self path = Ok category ->
  pdf_loop self path (Z.of_nat i) documents (map Ok texts) =
  Ok (documents ++ page_documents path category i texts).
Proof.
  induction texts as [|text texts IH]; intros i documents Hc.
  - simpl. unfold page_documents. simpl. rewrite app_nil_r. reflexivity.
  - rewrite page_documents_cons. cbn [map pdf_loop Py.bind].
    unfold page_document.
    replace (Z.of_nat i + 1) with (Z.of_nat (S i)) by lia.
    destruct (strip text) as [|c r].
    + apply IH, Hc.
    + rewrite Hc. cbn [Py.bind]. rewrite (IH (S i) _ Hc).
      rewrite <- app_assoc. reflexivity.
Qed.

(** The loop over pages one of which raises. *)
Lemma pdf_loop_raises self path pages : forall i documents,
  Exists raises pages -> raises (pdf_loop self path i documents pages).
Proof.
  induction pages as [|page pages IH]; intros i documents Hex.
  - inversion Hex.
  - cbn [pdf_loop]. destruct page as [text|e]; [|exact I].
    cbn [Py.bind]. apply Exists_cons in Hex as [Hhere|Hlater];
      [destruct Hhere|].
    destruct (strip text).
    + apply IH, Hlater.
    + destruct (extract_category_ok self path) as [c ->]. cbn [Py.bind].
      apply IH, Hlater.
Qed.

(** X17. A PDF that exists gives one document for every page whose text is
    not blank, in the order of the pages; the key "page" is the position of
    the page in the file counted from 1, so blank pages are skipped but
    counted, and the text of a page is kept untrimmed. Without the package
    [pypdf] the file gives no document, and one page whose extraction
    raises loses the documents of all the pages. *)
Theorem load_file_pdf env self file_path :
  let path := _resolve_path self file_path in
  exists_ env path = true ->
  lower (suffix path) = ".pdf" ->
  (pypdf_installed env = false -> load_file env self file_path = Ok []) /\
  (pypdf_installed env = true ->
   forall pages, pdf_pages env path = Ok pages ->
     (forall texts, pages = map Ok texts ->
        exists category,
          _extract_category self path = Ok category /\
          load_file env self file_path =
            Ok (page_documents path category 0 texts)) /\
     (Exists raises pages -> load_file env self file_path = Ok [])).
Proof.
  intros path Hex Hext.
  assert (Hsup : lower (suffix path) ∈ SUPPORTED_EXTENSIONS).
  { rewrite Hext. unfold SUPPORTED_EXTENSIONS. set_unfold. auto. }
  rewrite (load_file_unfold env self file_path Hex Hsup). fold path.
  rewrite Hext. cbn [String.eqb Ascii.eqb Bool.eqb andb].
  change (String.eqb ".pdf" ".pdf") with true. cbv iota.
  unfold _load_pdf. split.
  - intros ->. reflexivity.
  - intros -> pages ->. cbn [Py.bind]. split.
    + intros texts ->.
      destruct (extract_category_ok self path) as [category Hc].
      exists category. split; [exact Hc|].
      pose proof (pdf_loop_texts self path category texts 0%nat [] Hc) as Hl.
      change (Z.of_nat 0) with 0 in Hl. rewrite Hl. reflexivity.
    + intros Hraise.
      pose proof (pdf_loop_raises self path pages 0 [] Hraise) as Hr.
      destruct (pdf_loop self path 0 [] pages); [destruct Hr|reflexivity].
Qed.

Lemma load_file_pdf_witness :
  exists category,
    _extract_category knowledge (_resolve_path knowledge guide_pdf) = Ok category /\
    load_file three_pages_env knowledge guide_pdf =
      Ok (page_documents (_resolve_path knowledge guide_pdf) category 0
            ["Heaps"; "  "; "Tries"]) /\
    map (fun d => metadata d !! "page")
      (page_documents (_resolve_path knowledge guide_pdf) category 0
         ["Heaps"; "  "; "Tries"]) = [Some (MInt 1); Some (MInt 3)].
Proof.
  destruct (load_file_pdf three_pages_env knowledge guide_pdf
              ltac:(reflexivity) ltac:(vm_compute; reflexivity)) as [_ Hpages].
  destruct (Hpages eq_refl _ eq_refl) as [Htexts _].
  destruct (Htexts ["Heaps"; "  "; "Tries"] eq_refl) as (category & Hc & Hload).
  exists category. split; [exact Hc|]. split; [exact Hload|].
  vm_compute. reflexivity.
Defined.

Lemma pdf_loop_file_type self path pages : forall i acc docs,
  Forall (fun d => metadata d !! "source" = Some (MStr (path_str path)) /\
                   metadata d !! "filename" = Some (MStr (name path)) /\
                   metadata d !! "file_type" = Some (MStr ".pdf")) acc ->
  pdf_loop self path i acc pages = Ok docs ->
  Forall (fun d => metadata d !! "source" = Some (MStr (path_str path)) /\
                   metadata d !! "filename" = Some (MStr (name path)) /\
                   metadata d !! "file_type" = Some (MStr ".pdf")) docs.
Proof.
  induction pages as [|page pages IH]; intros i acc docs Hacc; simpl.
  - intros H. injection H as <-. exact Hacc.
  - destruct page as [text|e]; [|discriminate]. cbn [Py.bind].
    destruct (strip text) as [|ch r]; [apply IH, Hacc|].
    destruct (_extract_category self path) as [c|e]; [|discriminate].
    cbn [Py.bind]. apply IH. apply Forall_app. split; [exact Hacc|].
    constructor; [|constructor]. cbn [metadata].
    split; [apply lookup_insert_eq|].
    split; [rewrite lookup_insert_ne by discriminate; apply lookup_insert_eq|].
    rewrite !lookup_insert_ne by discriminate. apply lookup_insert_eq.
Qed.

(** X18. Every document that [load_file] returns names its file: "source"
    is the resolved path as a string, "filename" its last component, and
    "file_type" the lower-cased suffix of the file, which is one of the
    supported extensions; and the file exists. *)
Theorem load_file_names_file env self file_path docs doc :
  load_file env self file_path = Ok docs ->
  doc ∈ docs ->
  let path := _resolve_path self file_path in
  exists_ env path = true /\
  lower (suffix path) ∈ SUPPORTED_EXTENSIONS /\
  metadata doc !! "source" = Some (MStr (path_str path)) /\
  metadata doc !! "filename" = Some (MStr (name path)) /\
  metadata doc !! "file_type" = Some (MStr (lower (suffix path))).
Proof.
  intros Hload Hin path. revert Hload. unfold load_file. fold path.
  destruct (exists_ env path) eqn:Hex; cbn [negb];
    [|intros H; injection H as <-; inversion Hin].
  destruct (bool_decide _) eqn:Hsup;
    [intros H; injection H as <-; inversion Hin|].
  apply bool_decide_eq_false_1 in Hsup.
  assert (Hext : lower (suffix path) ∈ SUPPORTED_EXTENSIONS).
  { destruct (decide (lower (suffix path) ∈ SUPPORTED_EXTENSIONS)) as [H|H];
      [exact H|destruct (Hsup H)]. }
  intros Hload. split; [reflexivity|]. split; [exact Hext|]. revert Hload.
  destruct (String.eqb (lower (suffix path)) ".pdf") eqn:Hpdf.
  - apply String.eqb_eq in Hpdf. rewrite Hpdf.
    unfold _load_pdf. destruct (pypdf_installed env); cbn [try_except];
      [|intros H; injection H as <-; inversion Hin].
    destruct (pdf_pages env path) as [pages|e]; cbn [Py.bind try_except];
      [|intros H; injection H as <-; inversion Hin].
    destruct (pdf_loop self path 0 [] pages) as [ds|e] eqn:Hloop;
      cbn [try_except]; [|intros H; injection H as <-; inversion Hin].
    intros H. injection H as <-.
    pose proof (pdf_loop_file_type self path pages 0 [] ds
                  (List.Forall_nil _) Hloop) as Hall.
    rewrite Forall_forall in Hall. apply Hall, Hin.
  - unfold _load_text.
    destruct (read_text env path) as [content|e]; cbn [Py.bind try_except];
      [|intros H; injection H as <-; inversion Hin].
    destruct (_extract_category self path) as [c|e]; cbn [Py.bind try_except];
      [|intros H; injection H as <-; inversion Hin].
    intros H. injection H as <-. apply list_elem_of_singleton in Hin as ->.
    cbn [metadata].
    split; [apply lookup_insert_eq|].
    split; [rewrite lookup_insert_ne by discriminate; apply lookup_insert_eq|].
    rewrite !lookup_insert_ne by discriminate. apply lookup_insert_eq.
Qed.

Lemma load_file_names_file_witness :
  exists doc,
    load_file text_env knowledge arrays_md = Ok [doc] /\
    metadata doc !! "filename" = Some (MStr "arrays.md") /\
    metadata doc !! "file_type" = Some (MStr ".md").
Proof.
  eexists. split; [vm_compute; reflexivity|].
  pose proof (load_file_names_file text_env knowledge arrays_md _ _
                ltac:(vm_compute; reflexivity) ltac:(apply list_elem_of_here))
    as (_ & _ & _ & Hname & Htype).
  split; [exact Hname|exact Htype].
Defined.

End LoaderMore.

(** ** Loading a directory *)

Module DirectoryFacts.
Import Py PyFacts Doc Loader LoaderFacts Directory Loaded LoaderMore.

Lemma load_files_concat env self files : forall documents,
  exists lists,
    Forall2 (fun p docs => load_file env self p = Ok docs) files lists /\
    load_files env self documents files = Ok (documents ++ concat lists).
Proof.
  induction files as [|p files IH]; intros documents.
  - exists []. split; [constructor|]. simpl. rewrite app_nil_r. reflexivity.
  - destruct (load_file_returns env self p) as [docs Hp].
    destruct (IH (documents ++ docs)) as (lists & Hall & Hload).
    exists (docs :: lists). split; [constructor; assumption|].
    cbn [load_files]. rewrite Hp. cbn [Py.bind]. rewrite Hload.
    cbn [concat]. rewrite app_assoc. reflexivity.
Qed.

Lemma load_extensions_concat env dirs self target pattern exts : forall documents,
  exists lists,
    Forall2 (fun p docs => load_file env self p = Ok docs)
      (flat_map (fun ext => glob dirs target (pattern +:+ ext)) exts) lists /\
    load_extensions env dirs self target pattern documents exts =
      Ok (documents ++ concat lists).
Proof.
  induction exts as [|ext exts IH]; intros documents.
  - exists []. split; [constructor|]. simpl. rewrite app_nil_r. reflexivity.
  - destruct (load_files_concat env self (glob dirs target (pattern +:+ ext))
                documents) as (here & Hhere & Hload).
    destruct (IH (documents ++ concat here)) as (later & Hlater & Hrest).
    exists (here ++ later). split.
    + cbn [flat_map]. apply Forall2_app; assumption.
    + cbn [load_extensions]. rewrite Hload. cbn [Py.bind]. rewrite Hrest.
      rewrite concat_app, app_assoc. reflexivity.
Qed.


Lemma concat_all_nil {A} (lists : list (list A)) :
  Forall (fun l => l = []) lists -> concat lists = [].
Proof.
  induction 1 as [|l lists -> _ IH]; [reflexivity|]. exact IH.
Qed.

Lemma globbed_below dirs target recursive :
  (forall pattern, Forall (below target) (glob dirs target pattern)) ->
  Forall (below target) (globbed dirs target recursive).
Proof.
  intros Hglob. unfold globbed.
  induction (extensions dirs) as [|ext exts IH]; [constructor|].
  cbn [flat_map]. apply Forall_app. split; [apply Hglob|exact IH].
Qed.

(** A relative path below a relative target is looked up under the base. *)
Lemma resolve_below self target p :
  is_absolute target = false ->
  below target p ->
  exists rest,
    _resolve_path self p =
    {| is_absolute := is_absolute (base_path self);
       names := names (base_path self) ++ names target ++ rest |}.
Proof.
  intros Hrel [Habs [rest Hnames]]. exists rest.
  unfold _resolve_path, joinpath. rewrite Habs, Hrel, Hnames. reflexivity.
Qed.

(** X20. With a relative target directory, [load_directory] looks every
    file up a second time under the base: the glob gives paths that begin
    with the target, which itself begins with the base, and [load_file]
    resolves each of them against the base again. So when nothing exists
    at the doubled paths, the directory gives no document, whatever files
    it holds. *)
Theorem load_directory_relative_base env dirs self directory recursive :
  let target := target_dir self directory in
  is_absolute target = false ->
  (forall pattern, Forall (below target) (glob dirs target pattern)) ->
  (forall rest,
     exists_ env {| is_absolute := is_absolute (base_path self);
                    names := names (base_path self) ++ names target ++ rest |}
     = false) ->
  load_directory env dirs self directory recursive = Ok [].
Proof.
  intros target Hrel Hglob Hnone. unfold load_directory.
  change (match directory with
          | Some d => _resolve_path self d
          | None => base_path self
          end) with target.
  destruct (is_dir dirs target); cbn [negb]; [|reflexivity].
  destruct (load_extensions_concat env dirs self target
              (if recursive then "**/*" else "*") (extensions dirs) [])
    as (lists & Hall & ->).
  cbn [app]. f_equal. apply concat_all_nil.
  pose proof (globbed_below dirs target recursive Hglob) as Hbelow.
  unfold globbed in Hbelow.
  remember (flat_map
              (fun ext => glob dirs target
                            ((if recursive then "**/*" else "*") +:+ ext))
              (extensions dirs)) as files eqn:Hfiles.
  clear Hfiles. revert Hbelow.
  induction Hall as [|p docs files lists Hp _ IH];
    intros Hbelow; [constructor|].
  apply Forall_cons in Hbelow as [Hb Hbelow].
  constructor; [|apply IH, Hbelow].
  destruct (resolve_below self target p Hrel Hb) as [rest Hres].
  revert Hp. unfold load_file. rewrite Hres, Hnone. cbn [negb].
  intros H. injection H as <-. reflexivity.
Qed.

Lemma load_directory_relative_base_witness :
  load_directory knowledge_env (one_file_dirs (base_path knowledge)) knowledge
    None true = Ok [].
Proof.
  apply (load_directory_relative_base knowledge_env
           (one_file_dirs (base_path knowledge)) knowledge None true).
  - reflexivity.
  - intros pattern. cbn [target_dir one_file_dirs glob].
    destruct (String.eqb pattern "**/*.md"); constructor; [|constructor].
    split; [reflexivity|]. eexists. reflexivity.
  - intros rest. reflexivity.
Defined.

(** The same directory with an absolute base gives its file. *)
Example load_directory_absolute_base :
  exists doc,
    load_directory knowledge_env (one_file_dirs (base_path absolute_knowledge))
      absolute_knowledge None true = Ok [doc] /\
    metadata doc !! "category" = Some (MStr "technical").
Proof. eexists. split; vm_compute; reflexivity. Qed.

End DirectoryFacts.

(** ** Adding documents in batches *)

Module VectorStoreFacts.
Import Py Doc VectorStore Calls.

Lemma take_capped {A} (k : nat) (l : list A) :
  take (Nat.min k (length l)) l = take k l.
Proof.
  destruct (Nat.le_gt_cases k (length l)) as [H|H].
  - rewrite Nat.min_l by exact H. reflexivity.
  - rewrite Nat.min_r by lia. rewrite !take_ge by lia. reflexivity.
Qed.

(** A slice from [a] of width [b], both not negative. *)
Lemma slice_batch {A} (a b : nat) (xs : list A) :
  slice (Z.of_nat a) (Z.of_nat a + Z.of_nat b) xs = take b (drop a xs).
Proof.
  unfold slice, slice_bound.
  destruct (Z.ltb_spec (Z.of_nat a) 0) as [H|_]; [lia|].
  destruct (Z.ltb_spec (Z.of_nat a + Z.of_nat b) 0) as [H|_]; [lia|].
  destruct (Nat.le_gt_cases (length xs) a) as [Hout|Hin].
  - rewrite (drop_ge xs a) by exact Hout.
    rewrite drop_ge by lia. destruct b, (_ - _)%nat; reflexivity.
  - replace (Z.to_nat (Z.min (Z.of_nat (length xs)) (Z.of_nat a))) with a by lia.
    rewrite <- (take_capped b). rewrite length_drop. f_equal. lia.
Qed.

Lemma batches_unfold documents (b : nat) :
  (1 <= b)%nat ->
  batches documents (Z.of_nat b) =
  map (fun j => take b (drop (j * b) documents))
    (seq 0 (Z.to_nat ((Z.of_nat (length documents) + Z.of_nat b - 1) / Z.of_nat b))).
Proof.
  intros Hb. unfold batches, range0.
  destruct (Z.eqb_spec (Z.of_nat b) 0) as [H|_]; [lia|].
  destruct (Z.ltb_spec (Z.of_nat b) 0) as [H|_]; [lia|].
  rewrite map_map. apply map_ext. intros j.
  rewrite <- Nat2Z.inj_mul. apply slice_batch.
Qed.

Lemma concat_batches {A} (b : nat) (xs : list A) : forall k,
  concat (map (fun j => take b (drop (j * b) xs)) (seq 0 k)) = take (k * b) xs.
Proof.
  induction k as [|k IH]; [reflexivity|].
  rewrite seq_S, map_app, concat_app, IH. cbn [map concat Nat.add].
  rewrite app_nil_r, take_take_drop. f_equal. lia.
Qed.

(** The number of batches, between two multiples of the batch size. *)
Lemma batch_count (n b : nat) :
  (1 <= b)%nat ->
  let count := Z.to_nat ((Z.of_nat n + Z.of_nat b - 1) / Z.of_nat b) in
  (n <= count * b)%nat /\ (count * b < n + b)%nat.
Proof.
  intros Hb count.
  pose proof (Z.div_mod (Z.of_nat n + Z.of_nat b - 1) (Z.of_nat b) ltac:(lia)) as Hdm.
  pose proof (Z.mod_pos_bound (Z.of_nat n + Z.of_nat b - 1) (Z.of_nat b) ltac:(lia))
    as Hmod.
  assert (Hq : 0 <= (Z.of_nat n + Z.of_nat b - 1) / Z.of_nat b)
    by (apply Z.div_pos; lia).
  assert (Hc : Z.of_nat (count * b) =
               Z.of_nat b * ((Z.of_nat n + Z.of_nat b - 1) / Z.of_nat b)).
  { subst count. rewrite Nat2Z.inj_mul, Z2Nat.id by exact Hq. lia. }
  split; lia.
Qed.

(** X21. For a batch size of at least 1, the batches that [add_documents]
    cuts are a partition of the documents in order: put end to end they
    are the documents, none is empty, none is longer than the batch size,
    and every batch but the last has exactly the batch size. *)
Theorem batches_partition documents batch_size :
  1 <= batch_size ->
  concat (batches documents batch_size) = documents /\
  Forall (fun batch => (1 <= length batch <= Z.to_nat batch_size)%nat)
    (batches documents batch_size) /\
  (forall j batch,
     batches documents batch_size !! j = Some batch ->
     (S j < length (batches documents batch_size))%nat ->
     length batch = Z.to_nat batch_size).
Proof.
  intros Hsize.
  set (b := Z.to_nat batch_size).
  assert (Hb : (1 <= b)%nat) by (subst b; lia).
  replace batch_size with (Z.of_nat b) by (subst b; lia).
  rewrite (batches_unfold documents b Hb).
  destruct (batch_count (length documents) b Hb) as [Hlow Hhigh].
  cbv zeta in Hlow, Hhigh.
  set (count := Z.to_nat ((Z.of_nat (length documents) + Z.of_nat b - 1)
                            / Z.of_nat b)) in *.
  clearbody count. clearbody b.
  split; [rewrite concat_batches; apply take_ge; exact Hlow|].
  split.
  - apply Forall_forall. intros batch Hin.
    apply list_elem_of_fmap in Hin as (j & -> & Hj).
    apply list_elem_of_In, in_seq in Hj.
    rewrite length_take, length_drop.
    pose proof (Nat.mul_le_mono_r (S j) count b ltac:(lia)) as Hle.
    cbn [Nat.mul] in Hle. lia.
  - intros j batch Hj Hnext. rewrite length_map, length_seq in Hnext.
    rewrite list_lookup_fmap in Hj.
    rewrite lookup_seq_lt in Hj by lia. cbn in Hj. injection Hj as <-.
    rewrite length_take, length_drop.
    pose proof (Nat.mul_le_mono_r (S (S j)) count b ltac:(lia)) as Hle.
    cbn [Nat.mul] in Hle. lia.
Qed.

Lemma batches_partition_witness :
  concat (batches three_documents 2) = three_documents /\
  map (@length Document) (batches three_documents 2) = [2%nat; 1%nat].
Proof.
  split.
  - apply (batches_partition three_documents 2). lia.
  - reflexivity.
Defined.

(** The loop, on a collection that keeps its calls. *)
Lemma add_batches_recorded {S} (store : Chroma S) documents batch_size starts :
  forall all_ids s log,
  exists calls,
    add_batches (recording store) documents batch_size starts all_ids (s, log) =
      ((add_batches store documents batch_size starts all_ids s).1,
       ((add_batches store documents batch_size starts all_ids s).2,
        log ++ calls)) /\
    map fst calls =
      take (length calls)
        (map (fun i => slice i (i + batch_size) documents) starts) /\
    match (add_batches store documents batch_size starts all_ids s).1 with
    | Ok ids =>
        length calls = length starts /\
        exists answers,
          map snd calls = map Ok answers /\ ids = all_ids ++ concat answers
    | Raise e =>
        exists before batch,
          calls = before ++ [(batch, Raise e)] /\
          Forall (fun c => exists ids, c.2 = Ok ids) before
    end.
Proof.
  induction starts as [|i starts IH]; intros all_ids s log.
  - exists []. cbn [add_batches fst snd]. rewrite !app_nil_r.
    split; [reflexivity|]. split; [reflexivity|]. split; [reflexivity|].
    exists []. split; [reflexivity|]. cbn [concat]. rewrite app_nil_r. reflexivity.
  - cbn [add_batches recording chroma_add_documents fst snd].
    set (batch := slice i (i + batch_size) documents).
    destruct (chroma_add_documents store batch s) as [[ids|e] s'] eqn:Hcall;
      cbv beta match.
    + destruct (IH (all_ids ++ ids) s' (log ++ [(batch, Ok ids)]))
        as (calls & Hrun & Hbatches & Hresult).
      exists ((batch, Ok ids) :: calls).
      split; [rewrite <- app_assoc in Hrun; exact Hrun|].
      split; [cbn [map length take fst]; rewrite Hbatches; reflexivity|].
      destruct (add_batches store documents batch_size starts (all_ids ++ ids) s').1
        as [all|e].
      * destruct Hresult as (Hlen & answers & Hanswers & ->).
        split; [cbn [length]; rewrite Hlen; reflexivity|].
        exists (ids :: answers).
        split; [cbn [map snd]; rewrite Hanswers; reflexivity|].
        cbn [concat]. rewrite app_assoc. reflexivity.
      * destruct Hresult as (before & failed & -> & Hbefore).
        exists ((batch, Ok ids) :: before), failed.
        split; [reflexivity|]. constructor; [|exact Hbefore].
        exists ids. reflexivity.
    + exists [(batch, Raise e)]. cbn [fst snd].
      split; [reflexivity|]. split; [reflexivity|].
      exists [], batch. split; [reflexivity|]. constructor.
Qed.

Lemma batches_of_none batch_size : batches [] batch_size = [].
Proof.
  unfold batches, range0. cbn [length].
  destruct (Z.eqb_spec batch_size 0) as [_|Hne]; [reflexivity|].
  destruct (Z.ltb_spec batch_size 0) as [_|Hpos]; [reflexivity|].
  change (Z.of_nat 0) with 0. rewrite Z.div_small by lia. reflexivity.
Qed.

(** X22. For a batch size other than 0, the calls that [add_documents]
    makes to the collection are the batches of the documents, in order and
    each at most once. When the call returns, every batch was sent and the
    ids are the answers of the calls put end to end. When a batch is
    refused, the exception leaves [add_documents], the batches before it
    were stored and stay stored, and no later batch is sent. *)
Theorem add_documents_calls {S} (store : Chroma S) documents batch_size s log :
  batch_size <> 0 ->
  exists calls,
    add_documents (recording store) documents batch_size (s, log) =
      ((add_documents store documents batch_size s).1,
       ((add_documents store documents batch_size s).2, log ++ calls)) /\
    map fst calls = take (length calls) (batches documents batch_size) /\
    match (add_documents store documents batch_size s).1 with
    | Ok ids =>
        length calls = length (batches documents batch_size) /\
        exists answers, map snd calls = map Ok answers /\ ids = concat answers
    | Raise e =>
        exists before batch,
          calls = before ++ [(batch, Raise e)] /\
          Forall (fun c => exists ids, c.2 = Ok ids) before
    end.
Proof.
  intros Hsize. destruct documents as [|d documents].
  - exists []. cbn [add_documents fst snd]. rewrite app_nil_r, batches_of_none.
    split; [reflexivity|]. split; [reflexivity|]. split; [reflexivity|].
    exists []. split; reflexivity.
  - unfold add_documents, batches.
    destruct (range0 (length (d :: documents)) batch_size) as [starts|e] eqn:Hr.
    + destruct (add_batches_recorded store (d :: documents) batch_size starts [] s log)
        as (calls & Hrun & Hbatches & Hresult).
      exists calls. split; [exact Hrun|]. split; [exact Hbatches|].
      destruct (add_batches store (d :: documents) batch_size starts [] s).1.
      * destruct Hresult as (Hlen & answers & Hanswers & ->).
        rewrite length_map. split; [exact Hlen|].
        exists answers. split; [exact Hanswers|reflexivity].
      * exact Hresult.
    + unfold range0 in Hr.
      destruct (Z.eqb_spec batch_size 0) as [H|_]; [destruct (Hsize H)|].
      destruct (batch_size <? 0); discriminate.
Qed.

Lemma add_documents_calls_witness :
  exists calls,
    add_documents (recording logging_chroma) refused_last 2 ([], []) =
      ((add_documents logging_chroma refused_last 2 []).1,
       ((add_documents logging_chroma refused_last 2 []).2, [] ++ calls)) /\
    map fst calls = take (length calls) (batches refused_last 2) /\
    (add_documents logging_chroma refused_last 2 []).1 = Raise OSError /\
    (add_documents logging_chroma refused_last 2 []).2 = [[plain "a"; plain "b"]].
Proof.
  destruct (add_documents_calls logging_chroma refused_last 2 [] []
              ltac:(discriminate)) as (calls & Hrun & Hbatches & _).
  exists calls. split; [exact Hrun|]. split; [exact Hbatches|].
  split; reflexivity.
Defined.

(** X23. With documents to add and a batch size that is not positive, the
    collection is never called and its state stays as it was: a batch size
    of 0 raises [ValueError], and a negative one returns an empty list of
    ids as if the documents had been added. Without documents the call
    returns an empty list whatever the batch size. *)
Theorem add_documents_no_batch {S} (store : Chroma S) documents batch_size s :
  batch_size <= 0 ->
  add_documents store documents batch_size s =
  (match documents with
   | [] => Ok []
   | _ :: _ => if batch_size =? 0 then Raise ValueError else Ok []
   end, s).
Proof.
  intros Hsize. destruct documents as [|d documents]; [reflexivity|].
  unfold add_documents, range0.
  destruct (Z.eqb_spec batch_size 0) as [_|Hne]; [reflexivity|].
  destruct (Z.ltb_spec batch_size 0) as [_|H]; [reflexivity|lia].
Qed.

Lemma add_documents_no_batch_witness :
  add_documents (recording logging_chroma) three_documents (-1) ([], []) =
  (Ok [], ([], [])).
Proof.
  apply (add_documents_no_batch (recording logging_chroma) three_documents (-1)).
  lia.
Defined.

End VectorStoreFacts.

(** ** The system prompt *)

Module PromptsFacts.
Import Py Prompts.

Lemma append_inv_head (s a b : string) : s +:+ a = s +:+ b -> a = b.
Proof.
  induction s as [|c s IH]; intros H; [exact H|].
  apply IH. change (String c (s +:+ a) = String c (s +:+ b)) in H.
  injection H as H. exact H.
Qed.

(** The three interview types and their prompts. *)
Lemma known_type interview_type prompt :
  INTERVIEW_PROMPTS !! interview_type = Some prompt ->
  (interview_type = "behavioral" /\ prompt = BEHAVIORAL_PROMPT) \/
  (interview_type = "technical" /\ prompt = TECHNICAL_PROMPT) \/
  (interview_type = "system_design" /\ prompt = SYSTEM_DESIGN_PROMPT).
Proof.
  unfold INTERVIEW_PROMPTS.
  rewrite !lookup_insert_Some, lookup_singleton_Some.
  intros [[<- <-]|[_ [[<- <-]|[_ [<- <-]]]]]; auto.
Qed.

Lemma prompts_differ :
  String.eqb BEHAVIORAL_PROMPT TECHNICAL_PROMPT = false /\
  String.eqb BEHAVIORAL_PROMPT SYSTEM_DESIGN_PROMPT = false /\
  String.eqb TECHNICAL_PROMPT SYSTEM_DESIGN_PROMPT = false.
Proof. repeat split; vm_compute; reflexivity. Qed.

(** X24. [get_system_prompt] falls back silently: an interview type that
    is not one of the three gives the prompt of a behavioral interview, and
    an empty context gives the prompt of the context "No additional
    context.". Among the three types the prompt tells the type: two
    different types never give the same prompt, whatever the context and
    the candidate information. *)
Theorem get_system_prompt_fallbacks interview_type context candidate_info :
  (INTERVIEW_PROMPTS !! interview_type = None ->
   get_system_prompt interview_type context candidate_info =
   get_system_prompt "behavioral" context candidate_info) /\
  get_system_prompt interview_type "" candidate_info =
    get_system_prompt interview_type "No additional context." candidate_info /\
  (forall other,
     is_Some (INTERVIEW_PROMPTS !! interview_type) ->
     is_Some (INTERVIEW_PROMPTS !! other) ->
     get_system_prompt interview_type context candidate_info =
     get_system_prompt other context candidate_info ->
     interview_type = other).
Proof.
  split; [|split].
  - intros Hnone. unfold get_system_prompt. rewrite Hnone. reflexivity.
  - reflexivity.
  - intros other [p Hp] [q Hq]. unfold get_system_prompt.
    rewrite Hp, Hq. cbn [default].
    intros H. do 3 apply append_inv_head in H. cbv [id] in H.
    destruct prompts_differ as (Hbt & Hbs & Hts).
    apply known_type in Hp, Hq.
    destruct Hp as [[-> ->]|[[-> ->]|[-> ->]]],
             Hq as [[-> ->]|[[-> ->]|[-> ->]]];
      try reflexivity; exfalso;
      first
        [ apply String.eqb_eq in H;
          first [rewrite Hbt in H | rewrite Hbs in H | rewrite Hts in H];
          discriminate
        | symmetry in H; apply String.eqb_eq in H;
          first [rewrite Hbt in H | rewrite Hbs in H | rewrite Hts in H];
          discriminate ].
Qed.

Example unknown_type_is_behavioral :
  get_system_prompt "coding" "" default_candidate_info =
  get_system_prompt "behavioral" "No additional context." default_candidate_info.
Proof. reflexivity. Qed.

End PromptsFacts.

(** ** The room metadata *)

Module RoomFacts.
Import Py Room.

(** X25. Reading the room metadata never ends in a [JSONDecodeError]: for
    metadata that is absent, empty or not JSON the session starts as a
    behavioral interview with empty candidate information. Metadata that
    decodes to an object gives the values of its keys "interview_type" and
    "candidate_info", unchecked, with those defaults for a key that is
    absent. Metadata that decodes to anything but an object, such as a
    list, a string, a number or null, raises [AttributeError], which the
    block does not catch. *)
Theorem read_metadata_outcomes loads metadata :
  read_metadata loads metadata <> Fails JSONDecodeError /\
  ((metadata = None \/ metadata = Some "" \/
    exists m, metadata = Some m /\ loads m = Fails JSONDecodeError) ->
   read_metadata loads metadata = Returns (JString "behavioral", JString "")) /\
  (forall m decoded,
     metadata = Some m -> m <> "" -> loads m = Returns decoded ->
     match decoded with
     | JObject fields =>
         read_metadata loads metadata =
         Returns (default (JString "behavioral") (field "interview_type" fields),
                  default (JString "") (field "candidate_info" fields))
     | _ => read_metadata loads metadata = Fails AttributeError
     end).
Proof.
  split; [|split].
  - unfold read_metadata. destruct metadata as [[|c r]|]; [discriminate| |discriminate].
    destruct (loads (String c r)) as [decoded|[| |]]; try discriminate.
    destruct decoded; discriminate.
  - intros [->|[->|(m & -> & Hm)]]; [reflexivity|reflexivity|].
    unfold read_metadata. destruct m as [|c r]; [reflexivity|].
    rewrite Hm. reflexivity.
  - intros m decoded -> Hne Hm. unfold read_metadata.
    destruct m as [|c r]; [destruct (Hne eq_refl)|].
    rewrite Hm. destruct decoded; reflexivity.
Qed.

Example list_metadata_raises :
  read_metadata (fun _ => Returns (JArray [])) (Some "[]") = Fails AttributeError.
Proof. reflexivity. Qed.

Example later_key_wins :
  read_metadata
    (fun _ => Returns (JObject [("interview_type", JString "technical");
                                ("interview_type", JString "system_design")]))
    (Some "{}") = Returns (JString "system_design", JString "").
Proof. reflexivity. Qed.

End RoomFacts.

(** ** The trend and the order of the scores *)

Module TrendFacts.
Import Py PyFacts Evaluator EvaluatorFacts Trend.

Lemma sum_overall_app xs ys :
  sum_overall (xs ++ ys) = sum_overall xs + sum_overall ys.
Proof.
  induction xs as [|x xs IH]; [reflexivity|].
  cbn [app]. unfold sum_overall in *. cbn [foldr]. rewrite IH. lia.
Qed.

Lemma sum_overall_reverse xs : sum_overall (reverse xs) = sum_overall xs.
Proof.
  induction xs as [|x xs IH]; [reflexivity|].
  rewrite reverse_cons, sum_overall_app, IH.
  unfold sum_overall. cbn [foldr]. lia.
Qed.

Lemma mean_reverse xs : mean (reverse xs) = mean xs.
Proof. unfold mean. rewrite sum_overall_reverse, length_reverse. reflexivity. Qed.

(** With as many scores in one half as in the other, reading the scores
    backwards exchanges the halves. *)
Lemma half_diff_reverse xs :
  Nat.Even (length xs) ->
  (half_diff (reverse xs) == - half_diff xs)%Q.
Proof.
  intros [k Hk]. unfold half_diff.
  rewrite length_reverse, take_reverse, drop_reverse, !mean_reverse.
  assert (Hhalf : (length xs / 2 = k)%nat).
  { rewrite Hk, Nat.mul_comm. apply Nat.div_mul. discriminate. }
  rewrite Hhalf. replace (length xs - k)%nat with k by lia. ring.
Qed.

Lemma score_trend_of_diff m :
  (3 <= length (scores m))%nat ->
  exists trend,
    _score_trend m = Ok trend /\
    ((1 # 2 < half_diff (scores m))%Q /\ trend = "improving" \/
     (half_diff (scores m) < - (1 # 2))%Q /\ trend = "declining" \/
     (- (1 # 2) <= half_diff (scores m) <= 1 # 2)%Q /\ trend = "stable").
Proof.
  intros H. destruct (score_trend_cases m H) as (Hi & Hd & Hs).
  destruct (Qlt_le_dec (1 # 2) (half_diff (scores m))) as [Hup|Hup].
  - exists "improving". split; [apply Hi, Hup|]. left. split; [exact Hup|reflexivity].
  - destruct (Qlt_le_dec (half_diff (scores m)) (- (1 # 2))) as [Hdown|Hdown].
    + exists "declining". split; [apply Hd, Hdown|]. right. left.
      split; [exact Hdown|reflexivity].
    + exists "stable". split; [apply Hs; split; assumption|]. right. right.
      split; [split; assumption|reflexivity].
Qed.

(** X26. For a session with an even number of scores, at least four, the
    trend is symmetric in time: the same scores in the reverse order give
    the opposite trend, "declining" for "improving" and the other way
    round, and "stable" again for "stable". *)
Theorem score_trend_backwards m :
  (3 <= length (scores m))%nat ->
  Nat.Even (length (scores m)) ->
  exists trend,
    _score_trend m = Ok trend /\
    _score_trend (backwards m) = Ok (opposite trend).
Proof.
  intros Hlen Heven.
  assert (Hlen' : (3 <= length (scores (backwards m)))%nat).
  { cbn [backwards scores]. rewrite length_reverse. exact Hlen. }
  destruct (score_trend_of_diff m Hlen) as (trend & Ht & Hcase).
  destruct (score_trend_cases (backwards m) Hlen') as (Hi & Hd & Hs).
  cbn [backwards scores] in Hi, Hd, Hs.
  pose proof (half_diff_reverse (scores m) Heven) as Hrev.
  exists trend. split; [exact Ht|].
  destruct Hcase as [[Hc ->]|[[Hc ->]|[[Hc1 Hc2] ->]]]; cbn.
  - apply Hd. rewrite Hrev. lra.
  - apply Hi. rewrite Hrev. lra.
  - apply Hs. rewrite Hrev. split; lra.
Qed.

Lemma score_trend_backwards_witness :
  exists trend,
    _score_trend (session_with [5; 5; 9; 9]) = Ok trend /\
    _score_trend (backwards (session_with [5; 5; 9; 9])) = Ok (opposite trend).
Proof.
  apply (score_trend_backwards (session_with [5; 5; 9; 9])).
  - cbn. lia.
  - exists 2%nat. reflexivity.
Defined.

(** With an odd number of scores the middle one counts in the second half
    in both directions, and the symmetry is lost. *)
Example score_trend_odd_not_symmetric :
  _score_trend (session_with [2; 1; 1]) = Ok "declining" /\
  _score_trend (backwards (session_with [2; 1; 1])) = Ok "stable".
Proof. split; vm_compute; reflexivity. Qed.

End TrendFacts.
